(** * check50: a shallow embedding of the check runner, the process
      session wrapper, the valgrind report audit and the diagnostic
      rendering of [check50.py], with the properties its specification
      states about them.

    Conventions of the embedding.
    - Python text ([str] under Python 3, the branch that calls
      [pexpect.spawnu]) is a sequence of Unicode code points: [list N].
      Literals are written [u "..."]; a Rocq string literal has no escape
      sequences, so line feed, carriage return and tab are spelled by their
      code points ([LF], [CR], [TAB]).
    - The three verdicts are the Python values the class [Checks] gives
      them: [PASS = True], [FAIL = False], [SKIP = None], that is
      [option bool].
    - Mutable objects ([config], the running [Checks] instance, the
      process environment, the temporary directory tree) are passed
      explicitly; a method returns what it raised, if anything, together
      with the new states.
    - The diagnostic [print(..., file=sys.stderr)] calls of the source write
      only to the harness's own error stream and are left out. *)

From Stdlib Require Import String Ascii NArith ZArith List Bool Lia DecimalString.
From stdpp Require Import base option list gmap.

Local Open Scope N_scope.

(* ===================================================================== *)
(** * Python text *)
(* ===================================================================== *)

Module Py.

Abbreviation str := (list N) (only parsing).

(** A literal: the code points of an ASCII Rocq string. *)
Definition u (s : string) : str :=
  map N_of_ascii (list_ascii_of_string s).
Arguments u s%_string.

Definition TAB : N := 9.
Definition LF : N := 10.
Definition CR : N := 13.
Definition dquote : N := 34.
Definition squote : N := 39.
Definition backslash : N := 92.

(** [s.startswith(p)] *)
Fixpoint startswith (s p : str) : bool :=
  match p, s with
  | [], _ => true
  | _ :: _, [] => false
  | a :: p', b :: s' => (a =? b) && startswith s' p'
  end.

(** [s.replace(old, new)]: the occurrences of [old] are replaced from left
    to right and do not overlap; [skip] counts the characters of the
    occurrence just replaced that are still to be passed over.  With an
    empty [old] Python puts [new] before every character and at the end. *)
Fixpoint replace_from (old new s : str) (skip : nat) : str :=
  match s with
  | [] => []
  | c :: s' =>
      match skip with
      | S k => replace_from old new s' k
      | O =>
          if startswith s old
          then new ++ replace_from old new s' (length old - 1)
          else c :: replace_from old new s' 0
      end
  end.

Definition replace (s old new : str) : str :=
  match old with
  | [] => new ++ flat_map (fun c => c :: new) s
  | _ :: _ => replace_from old new s 0
  end.

(** ["sep".join(l)] *)
Fixpoint join (sep : str) (l : list str) : str :=
  match l with
  | [] => []
  | [s] => s
  | s :: l' => s ++ sep ++ join sep l'
  end.

(** [s[1:-1]] *)
Definition strip_ends (s : str) : str := take (length s - 2) (drop 1 s).

(** Lower-case hexadecimal digits, zero padded, as [repr] writes them. *)
Definition hexdigit (d : N) : N := if d <? 10 then 48 + d else 87 + d.

Fixpoint hex (width : nat) (n : N) : str :=
  match width with
  | O => []
  | S w => hex w (n / 16) ++ [hexdigit (n mod 16)]
  end.

(** [repr(s)] of a Python 3 [str].  The quote is the single quote unless
    the text holds a single quote and no double quote.  [isprintable] is
    the interpreter's Unicode table ([str.isprintable] on one character);
    [repr] consults it above U+007F only. *)
Definition repr_quote (s : str) : N :=
  if existsb (N.eqb squote) s && negb (existsb (N.eqb dquote) s)
  then dquote else squote.

Definition repr_char (isprintable : N -> bool) (quote ch : N) : str :=
  if (ch =? quote) || (ch =? backslash) then [backslash; ch]
  else if ch =? TAB then u "\t"
  else if ch =? LF then u "\n"
  else if ch =? CR then u "\r"
  else if (ch <? 32) || (ch =? 127) then u "\x" ++ hex 2 ch
  else if ch <? 127 then [ch]
  else if isprintable ch then [ch]
  else if ch <=? 255 then u "\x" ++ hex 2 ch
  else if ch <=? 65535 then u "\u" ++ hex 4 ch
  else u "\U" ++ hex 8 ch.

Definition repr_body (isprintable : N -> bool) (s : str) : str :=
  flat_map (repr_char isprintable (repr_quote s)) s.

Definition repr (isprintable : N -> bool) (s : str) : str :=
  repr_quote s :: repr_body isprintable s ++ [repr_quote s].

(** [os.path.join(a, b)] (POSIX) *)
Definition path_join (a b : str) : str :=
  if startswith b (u "/") then b
  else match last a with
       | None => b
       | Some c => if c =? 47 then a ++ b else a ++ u "/" ++ b
       end.

End Py.

Import Py.

(* ===================================================================== *)
(** * Diagnostics: [Mismatch] and [Error] *)
(* ===================================================================== *)

(** What [Mismatch.raw] is given: a text, a list of lines, or the class
    [pexpect.EOF] used as the end-of-output sentinel. *)
Inductive pyvalue : Type :=
  | Str (s : str)
  | Lines (l : list str)
  | EOF.

Module Mismatch.

Record t : Type := Mismatch { expected : pyvalue; actual : pyvalue }.

(** The part of [raw] after the list and end-of-output tests: the [repr]
    of the text without its quotation marks, cut after 15 characters. *)
Definition raw_text (isprintable : N -> bool) (s : str) : str :=
  let s := repr isprintable s in
  let s := strip_ends s in
  let s := if (15 <? length s)%nat then take 15 s ++ u "..." else s in
  [dquote] ++ s ++ [dquote].

(** [Mismatch.raw(s)] *)
Definition raw (isprintable : N -> bool) (s : pyvalue) : str :=
  match s with
  | Lines l => raw_text isprintable (join [LF] l)
  | EOF => u "EOF"
  | Str s => raw_text isprintable s
  end.

(** [Mismatch.__str__] *)
Definition to_str (isprintable : N -> bool) (m : t) : str :=
  u "expected " ++ raw isprintable (expected m) ++ u ", not "
    ++ raw isprintable (actual m).

End Mismatch.

(** The verdicts, as the class [Checks] defines them. *)
Definition PASS : option bool := Some true.
Definition FAIL : option bool := Some false.
Definition SKIP : option bool := None.

(** A rationale is a text or a [Mismatch]; [None] is Python's [None]. *)
Inductive rationale_value : Type :=
  | Text (s : str)
  | Mis (m : Mismatch.t).

(** What a call may raise.  [Error] is the check-local diagnostic with its
    three attributes, [InternalError] the harness's own, [AssertionError]
    what [unittest]'s [fail()] raises; every other exception (an [OSError]
    of [shutil], an [AttributeError], a [TypeError], ...) is
    [OtherException] with the name of its class. *)
Inductive exn : Type :=
  | Error (rationale : option rationale_value) (helpers : option str)
          (result : option bool)
  | InternalError (msg : str)
  | AssertionError
  | OtherException (class : string).

(* ===================================================================== *)
(** * The state the harness works on *)
(* ===================================================================== *)

(** The attributes of the module [config] that [check50.py] uses. *)
Record config : Type := Config {
  tempdir : str;
  test_cases : list str;
  test_results : gmap (list N) (option bool)
}.

(** The temporary directory tree: a directory is known by its path. *)
#[local] Unset Elimination Schemes.
Inductive node : Type :=
  | File (content : str)
  | Dir (entries : list (list N * node)).
#[local] Set Elimination Schemes.

(** A [pexpect] child as far as [check50.py] reads it: the attributes
    [before], [after] and [buffer], and what the process has still to write
    ([pending], in the pieces the reads will deliver) and whether it then
    closes its output ([closes]) or stays silent. *)
Inductive after_value : Type :=
  | AfterNone
  | AfterText (s : str)
  | AfterEOF
  | AfterTIMEOUT.

Record Spawn : Type := MkSpawn {
  before : option str;
  after : after_value;
  buffer : str;
  pending : list str;
  closes : bool
}.

(** One call of [pexpect.spawnu]: the command line, the [env] argument and
    the process environment at that moment. *)
Record spawn_call : Type := SpawnCall {
  call_cmd : str;
  call_env : option (gmap (list N) (list N));
  call_environ : gmap (list N) (list N)
}.

(** The environment the spawned process gets: [env] when one is passed,
    the environment of the harness process otherwise. *)
Definition child_environment (c : spawn_call) : gmap (list N) (list N) :=
  default (call_environ c) (call_env c).

Record world : Type := World {
  cfg : config;
  fs : gmap (list N) node;
  cwd : str;
  environ : gmap (list N) (list N);
  spawned : list spawn_call
}.

(** [class Child] *)
Record Child : Type := MkChild {
  child : Spawn;
  output : pyvalue;
  exitstatus : option Z
}.

(** An instance of [Checks] (a [unittest.TestCase]). *)
Record test : Type := Test {
  _testMethodName : str;
  result : option bool;
  rationale : option rationale_value;
  helpers : option str;
  log : list str;
  children : list Child;
  dir : option str;
  _valgrind : bool
}.

(** [Checks.__init__(method_name)] *)
Definition new_test (method_name : str) : test :=
  {| _testMethodName := method_name; result := FAIL; rationale := None;
     helpers := None; log := []; children := []; dir := None;
     _valgrind := false |}.

(** The body of a check: it may change the instance and the world, and
    returns normally ([None]) or raises. *)
Definition body : Type := test -> world -> option exn * test * world.

Definition set_test_results (f : gmap (list N) (option bool) -> gmap (list N) (option bool))
    (w : world) : world :=
  {| cfg := {| tempdir := tempdir (cfg w); test_cases := test_cases (cfg w);
               test_results := f (test_results (cfg w)) |};
     fs := fs w; cwd := cwd w; environ := environ w; spawned := spawned w |}.

(* ===================================================================== *)
(** * The decorators [check] and [valgrind] *)
(* ===================================================================== *)

(** Python truthiness of the [dependency] argument: [None] and the empty
    text are false. *)
Definition truthy (dependency : option str) : bool :=
  match dependency with
  | Some (_ :: _) => true
  | _ => false
  end.

(** [config.test_results.get(dependency)]: [None] when there is no entry. *)
Definition get (results : gmap (list N) (option bool)) (key : option str)
    : option bool :=
  match key with
  | Some k => default None (results !! k)
  | None => None
  end.

(** [shutil.copytree(src, dst)]: [src] must be a directory and [dst] must
    not exist; otherwise it raises an [OSError]. *)
Definition copytree (src dst : str) (fs : gmap (list N) node)
    : option (gmap (list N) node) :=
  match fs !! src, fs !! dst with
  | Some (Dir entries), None => Some (<[dst := Dir entries]> fs)
  | _, _ => None
  end.

(** Registration, the part of [check(dependency)(func)] that runs when the
    class body is read: the name is appended to [config.test_cases]. *)
Definition check_register (name : str) (c : config) : exn + config :=
  inr {| tempdir := tempdir c; test_cases := test_cases c ++ [name];
         test_results := test_results c |}.

(** Registration part of [valgrind(func)]: it raises when the last
    registered name is the function's own.  The message of the source also
    names the frame, line and file of the declaration; its fixed part is
    kept. *)
Definition valgrind_register (name : str) (c : config) : exn + config :=
  match last (test_cases c) with
  | None => inl (OtherException "IndexError")
  | Some l =>
      if bool_decide (l = name)
      then inl (InternalError (u "invalid check: @valgrind must be placed below @check"))
      else inr c
  end.

(** Reading a class body whose methods carry [@check]: the decorators run
    in the order of the declarations, and an exception ends the reading. *)
Fixpoint declare_all (names : list str) (c : config) : exn + config :=
  match names with
  | [] => inr c
  | name :: names' =>
      match check_register name c with
      | inl e => inl e
      | inr c' => declare_all names' c'
      end
  end.

(** The [wrapper] that [check(dependency)] returns for [func], whose
    [__name__] is [name]. *)
Definition wrapper (name : str) (dependency : option str) (func : body)
    (self : test) (w : world) : option exn * test * world :=
  if truthy dependency
     && negb (bool_decide (get (test_results (cfg w)) dependency = PASS))
  then
    (None,
     {| _testMethodName := _testMethodName self; result := SKIP;
        rationale := Some (Text (u "can't check until a frown turns upside down"));
        helpers := helpers self; log := log self; children := children self;
        dir := dir self; _valgrind := _valgrind self |},
     set_test_results (insert name SKIP) w)
  else
    let dst_dir := path_join (tempdir (cfg w)) (_testMethodName self) in
    let self :=
      {| _testMethodName := _testMethodName self; result := result self;
         rationale := rationale self; helpers := helpers self;
         log := log self; children := children self;
         dir := Some dst_dir; _valgrind := _valgrind self |} in
    let src_dir :=
      path_join (tempdir (cfg w))
                (if truthy dependency then default [] dependency else u "_") in
    match copytree src_dir dst_dir (fs w) with
    | None => (Some (OtherException "OSError"), self, w)
    | Some fs' =>
        let w := {| cfg := cfg w; fs := fs'; cwd := dst_dir;
                    environ := environ w; spawned := spawned w |} in
        match func self w with
        | (None, self, w) =>
            (None,
             {| _testMethodName := _testMethodName self; result := PASS;
                rationale := rationale self; helpers := helpers self;
                log := log self; children := children self;
                dir := dir self; _valgrind := _valgrind self |},
             set_test_results (insert name PASS) w)
        | (Some (Error r h res), self, w) =>
            (None,
             {| _testMethodName := _testMethodName self; result := res;
                rationale := r; helpers := h;
                log := log self; children := children self;
                dir := dir self; _valgrind := _valgrind self |},
             set_test_results (insert name res) w)
        | (Some e, self, w) => (Some e, self, w)
        end
    end.

(* ===================================================================== *)
(** * Running the suite: [main], [unittest] and [TestResult] *)
(* ===================================================================== *)

(** A method of the checks class: the decorated function with the argument
    of its [@check]. *)
Record method : Type := Method {
  dependency : option str;
  func : body
}.

(** One dictionary of [TestResult.results].  Its [helpers] and [log] are
    those of the instance it keeps under ["test"]. *)
Record entry : Type := Entry {
  entry_rationale : exn + option rationale_value;
  status : option bool;
  entry_test : test
}.

(** [Checks.tearDown]: the list of children is emptied, each one killed. *)
Definition tearDown (self : test) : test :=
  {| _testMethodName := _testMethodName self; result := result self;
     rationale := rationale self; helpers := helpers self; log := log self;
     children := []; dir := dir self; _valgrind := _valgrind self |}.

(** [TestResult.addSuccess] and [TestResult.addError] *)
Definition addSuccess (self : test) : entry :=
  {| entry_rationale := inr (rationale self); status := result self;
     entry_test := self |}.

Definition addError (self : test) (err : exn) : entry :=
  {| entry_rationale := inl err; status := FAIL; entry_test := self |}.

(** [suite.addTest(checks(case))] for every name of [config.test_cases]:
    the class is asked for the method of that name and fails when it has
    none. *)
Fixpoint make_suite (checks : gmap (list N) method) (cases : list str)
    : option (list (list N * method * test)) :=
  match cases with
  | [] => Some []
  | case :: cases' =>
      match checks !! case, make_suite checks cases' with
      | Some m, Some suite => Some ((case, m, new_test case) :: suite)
      | _, _ => None
      end
  end.

(** How a run ends: every check was run, or [addError] left through
    [sys.exit(1)]. *)
Inductive run_end : Type :=
  | Completed
  | Exited.

(** [suite.run(result)]: the checks run one after the other.  A check that
    returns is reported through [addSuccess]; an [AssertionError] goes to
    the [addFailure] that [unittest] provides and leaves no entry; any
    other exception goes to [addError], which ends the run. *)
Fixpoint run_suite (suite : list (list N * method * test)) (results : list entry)
    (w : world) : run_end * list entry * world :=
  match suite with
  | [] => (Completed, results, w)
  | (name, m, self) :: suite' =>
      let '(raised, self, w) := wrapper name (dependency m) (func m) self w in
      let self := tearDown self in
      match raised with
      | None => run_suite suite' (results ++ [addSuccess self]) w
      | Some AssertionError => run_suite suite' results w
      | Some e => (Exited, results ++ [addError self e], w)
      end
  end.

(* ===================================================================== *)
(** * The process session: [Child.stdout] *)
(* ===================================================================== *)

(** What [pexpect]'s [expect] and [expect_exact] do with a call: they
    return, or raise [EOF] or [TIMEOUT], or raise something else (an invalid
    pattern, for one). *)
Inductive expect_result : Type :=
  | Matched
  | RaisedEOF
  | RaisedTIMEOUT
  | RaisedOther (class : string).

(** The [output] argument of [stdout]: nothing, an object with a [read]
    method (a [File]; [content] is what [read] returns), the class [EOF],
    or a text. *)
Inductive expectation : Type :=
  | NoOutput
  | Readable (content : str)
  | ExpectEOF
  | ExpectText (s : str).

(** What [stdout] returns: the [Child] itself, or the transcript. *)
Inductive stdout_value : Type :=
  | Self
  | Transcript (out : pyvalue).

(** [output.replace("\n", "\r\n")] and [result.replace("\r\n", "\n")] *)
Definition to_crlf (s : str) : str := replace s [LF] [CR; LF].
Definition from_crlf (s : str) : str := replace s [CR; LF] [LF].

Definition set_child (self : Child) (c : Spawn) : Child :=
  {| child := c; output := output self; exitstatus := exitstatus self |}.

(** [Child.stdout(output, str_output, timeout)].  [expect] and
    [expect_exact] are the two methods of the [pexpect] child, [wait] is
    [Child.wait]; [lg] is the log of the check the child belongs to
    ([self.test.log]).  [str_output], when given, is a text. *)
Definition transcript (self : Child) : pyvalue := output self.

Definition stdout
    (isprintable : N -> bool)
    (expect : pyvalue -> Z -> Spawn -> expect_result * Spawn)
    (expect_exact : pyvalue -> Z -> Spawn -> expect_result * Spawn)
    (wait : Z -> Child -> option exn * Child)
    (self : Child) (lg : list str)
    (output : expectation) (str_output : option str) (timeout : Z)
    : (exn + stdout_value) * Child * list str :=
  match output with
  | NoOutput =>
      match wait timeout self with
      | (Some e, self) => (inl e, self, lg)
      | (None, self) => (inr (Transcript (transcript self)), self, lg)
      end
  | _ =>
      (* files are taken literally, anything else is a pattern *)
      let '(output, expect) :=
        match output with
        | Readable content => (Str content, expect_exact)
        | ExpectText s => (Str s, expect)
        | _ => (EOF, expect)
        end in
      let '(str_output, output) :=
        match output with
        | Str s => (default s str_output, Str (to_crlf s))
        | _ => (u "EOF", output)
        end in
      let lg := lg ++ [u "checking for output " ++ [dquote] ++ str_output
                          ++ [dquote] ++ u "..."] in
      match expect output timeout (child self) with
      | (RaisedEOF, c) =>
          match before c with
          | None => (inl (OtherException "TypeError"), set_child self c, lg)
          | Some b =>
              let result := b ++ buffer c in
              match after c with
              | AfterEOF =>
                  (inl (Error (Some (Mis (Mismatch.Mismatch (Str str_output)
                                            (Str (from_crlf result)))))
                              None FAIL), set_child self c, lg)
              | AfterText a =>
                  (inl (Error (Some (Mis (Mismatch.Mismatch (Str str_output)
                                            (Str (from_crlf (result ++ a))))))
                              None FAIL), set_child self c, lg)
              | _ => (inl (OtherException "TypeError"), set_child self c, lg)
              end
          end
      | (RaisedTIMEOUT, c) =>
          (inl (Error (Some (Text (u "timed out while waiting for "
                                     ++ Mismatch.raw isprintable (Str str_output))))
                      None FAIL), set_child self c, lg)
      | (RaisedOther cls, c) => (inl (OtherException cls), set_child self c, lg)
      | (Matched, c) =>
          (* if EOF was expected and there still was output, report it *)
          match output, before c with
          | EOF, Some (x :: b) =>
              (inl (Error (Some (Mis (Mismatch.Mismatch EOF
                                        (Str (from_crlf (x :: b))))))
                          None FAIL), set_child self c, lg)
          | _, _ => (inr Self, set_child self c, lg)
          end
      end
  end.

(* ===================================================================== *)
(** * The matchers of the session *)
(* ===================================================================== *)

Module Pexpect.

(** Modelled from the spec: the pattern language of "the session's generic
    pattern matcher".  The matcher is [pexpect]'s, which is not part of
    the repository; the fragment modelled here has ordinary characters,
    [.] for any character, a backslash before a punctuation character to
    take it literally, and the greedy postfix operators [*], [+] and [?].
    Any other pattern is [Unmodelled]: nothing is said about it. *)
Inductive atom : Type :=
  | AnyChar
  | Char (c : N).

Inductive quantifier : Type :=
  | Once
  | Star
  | Plus
  | Opt.

Inductive compiled : Type :=
  | Regex (items : list (atom * quantifier))
  | BadPattern
  | Unmodelled.

Definition is_quantifier (c : N) : option quantifier :=
  if c =? 42 then Some Star
  else if c =? 43 then Some Plus
  else if c =? 63 then Some Opt
  else None.

(** Modelled from the spec: the characters [( ) [ ] { } | ^ $], which
    have a meaning of their own in a pattern and are outside the
    fragment. *)
Definition is_special (c : N) : bool :=
  existsb (N.eqb c) [40; 41; 91; 93; 123; 125; 124; 94; 36].

Definition is_punctuation (c : N) : bool :=
  ((33 <=? c) && (c <=? 47)) || ((58 <=? c) && (c <=? 64))
  || ((91 <=? c) && (c <=? 96)) || ((123 <=? c) && (c <=? 126)).

(** The reader's state: the items read so far (last one first), whether
    the last character was an unfinished backslash, whether the last item
    may take an operator, and whether the last character was an
    operator. *)
Record reader : Type := Reader {
  items : list (atom * quantifier);
  escaped : bool;
  operand : bool;
  operated : bool
}.

Definition push (a : atom) (r : reader) : compiled + reader :=
  inr {| items := (a, Once) :: items r; escaped := false;
         operand := true; operated := false |}.

(** Modelled from the spec: reading one character of a pattern. *)
Definition read_char (st : compiled + reader) (c : N) : compiled + reader :=
  match st with
  | inl e => inl e
  | inr r =>
      if escaped r then
        if is_punctuation c then push (Char c) r else inl Unmodelled
      else if c =? backslash then
        inr {| items := items r; escaped := true; operand := false;
               operated := false |}
      else match is_quantifier c with
           | Some q =>
               if operated r then inl Unmodelled
               else match operand r, items r with
                    | true, (a, _) :: rest =>
                        inr {| items := (a, q) :: rest; escaped := false;
                               operand := false; operated := true |}
                    | _, _ => inl BadPattern
                    end
           | None =>
               if is_special c then inl Unmodelled
               else if c =? 46 then push AnyChar r
               else push (Char c) r
           end
  end.

(** Modelled from the spec: compiling a pattern text. *)
Definition compile (p : str) : compiled :=
  match fold_left read_char p
          (inr {| items := []; escaped := false; operand := false;
                  operated := false |}) with
  | inl e => e
  | inr r => if escaped r then BadPattern else Regex (rev (items r))
  end.

Definition atom_matches (a : atom) (c : N) : bool :=
  match a with
  | AnyChar => true
  | Char x => x =? c
  end.

(** Modelled from the spec: matching a compiled pattern at the start of a
    text, operators taking as much as they can and giving back when the
    rest fails; the result is what is left of the text after the match. *)
Fixpoint match_here (r : list (atom * quantifier)) (s : str) : option str :=
  match r with
  | [] => Some s
  | (a, q) :: r' =>
      let many :=
        fix many (s : str) : option str :=
          match s with
          | c :: s' =>
              if atom_matches a c
              then match many s' with
                   | Some rest => Some rest
                   | None => match_here r' s
                   end
              else match_here r' s
          | [] => match_here r' s
          end in
      match q, s with
      | Once, c :: s' => if atom_matches a c then match_here r' s' else None
      | Once, [] => None
      | Star, _ => many s
      | Plus, c :: s' => if atom_matches a c then many s' else None
      | Plus, [] => None
      | Opt, c :: s' =>
          if atom_matches a c
          then match match_here r' s' with
               | Some rest => Some rest
               | None => match_here r' s
               end
          else match_here r' s
      | Opt, [] => match_here r' s
      end
  end.

(** A search gives the text before the match, the match and the rest. *)
Definition found : Type := (list N * list N * list N)%type.

Definition shift (c : N) (f : found) : found :=
  let '(b, m, rest) := f in (c :: b, m, rest).

(** Modelled from the spec: the pattern matcher looks for the leftmost
    place of the text at which the pattern matches. *)
Fixpoint search (r : list (atom * quantifier)) (s : str) : option found :=
  match match_here r s with
  | Some rest => Some ([], take (length s - length rest) s, rest)
  | None =>
      match s with
      | [] => None
      | c :: s' => shift c <$> search r s'
      end
  end.

(** Modelled from the spec: the "exact substring/sequence match" looks for
    the leftmost place at which the text occurs as it is. *)
Fixpoint search_exact (needle s : str) : option found :=
  if startswith s needle
  then Some ([], needle, drop (length needle) s)
  else match s with
       | [] => None
       | c :: s' => shift c <$> search_exact needle s'
       end.

(** Modelled from the spec: one expectation on a session.  What the
    process has written is searched; while nothing is found the next piece
    of its output is read; when it has closed its output the call raises
    [EOF] (or returns, when end of output is what was expected); when the
    process stays silent the deadline passes and the call raises
    [TIMEOUT]. *)
Fixpoint expect_loop (searcher : str -> option found) (eof_expected : bool)
    (buf : str) (pending : list str) (closes : bool) : expect_result * Spawn :=
  match searcher buf with
  | Some (b, m, rest) =>
      (Matched, {| before := Some b; after := AfterText m; buffer := rest;
                   pending := pending; closes := closes |})
  | None =>
      match pending with
      | piece :: pending' =>
          expect_loop searcher eof_expected (buf ++ piece) pending' closes
      | [] =>
          if closes
          then (if eof_expected then Matched else RaisedEOF,
                {| before := Some buf; after := AfterEOF; buffer := [];
                   pending := []; closes := closes |})
          else (RaisedTIMEOUT,
                {| before := Some buf; after := AfterTIMEOUT; buffer := buf;
                   pending := []; closes := closes |})
      end
  end.

(** Modelled from the spec: [expect], the pattern matcher of the session.
    The deadline is not counted in seconds: it passes exactly on a
    process that stays silent without closing its output. *)
Definition expect (pattern : pyvalue) (timeout : Z) (c : Spawn)
    : expect_result * Spawn :=
  match pattern with
  | EOF => expect_loop (fun _ => None) true (buffer c) (pending c) (closes c)
  | Str p =>
      match compile p with
      | Regex r => expect_loop (search r) false (buffer c) (pending c) (closes c)
      | BadPattern => (RaisedOther "re.error", c)
      | Unmodelled => (RaisedOther "pattern outside the modelled fragment", c)
      end
  | Lines _ => (RaisedOther "pattern outside the modelled fragment", c)
  end.

(** Modelled from the spec: [expect_exact], the exact matcher of the
    session. *)
Definition expect_exact (pattern : pyvalue) (timeout : Z) (c : Spawn)
    : expect_result * Spawn :=
  match pattern with
  | EOF => expect_loop (fun _ => None) true (buffer c) (pending c) (closes c)
  | Str p => expect_loop (search_exact p) false (buffer c) (pending c) (closes c)
  | Lines _ => (RaisedOther "pattern outside the modelled fragment", c)
  end.

End Pexpect.

(* ===================================================================== *)
(** * [Checks.spawn] *)
(* ===================================================================== *)

Definition set_log (self : test) (lg : list str) : test :=
  {| _testMethodName := _testMethodName self; result := result self;
     rationale := rationale self; helpers := helpers self; log := lg;
     children := children self; dir := dir self;
     _valgrind := _valgrind self |}.

Definition set_valgrind (self : test) (b : bool) : test :=
  {| _testMethodName := _testMethodName self; result := result self;
     rationale := rationale self; helpers := helpers self; log := log self;
     children := children self; dir := dir self; _valgrind := b |}.

Definition set_children (self : test) (cs : list Child) : test :=
  {| _testMethodName := _testMethodName self; result := result self;
     rationale := rationale self; helpers := helpers self; log := log self;
     children := cs; dir := dir self; _valgrind := _valgrind self |}.

(** [shlex.quote]: a text of letters, digits and [_ @ % + = : , . / -] is
    left as it is; any other is put between single quotes. *)
Definition is_safe (c : N) : bool :=
  ((48 <=? c) && (c <=? 57)) || ((65 <=? c) && (c <=? 90))
  || ((97 <=? c) && (c <=? 122))
  || existsb (N.eqb c) [95; 64; 37; 43; 61; 58; 44; 46; 47; 45].

Definition quote (s : str) : str :=
  match s with
  | [] => [squote; squote]
  | _ :: _ =>
      if forallb is_safe s then s
      else [squote]
             ++ replace s [squote] [squote; dquote; squote; dquote; squote]
             ++ [squote]
  end.

(** [os.environ.update(env)]: the entries of [env] are written over those
    of the process environment.  [dict.update] returns [None]. *)
Definition environ_update (environ env : gmap (list N) (list N))
    : gmap (list N) (list N) := env ∪ environ.

(** [Checks.spawn(cmd, env)].  [spawnu] is [pexpect.spawnu]: the child it
    creates for a call. *)
Definition spawn (spawnu : spawn_call -> Spawn) (self : test) (cmd : str)
    (env : option (gmap (list N) (list N))) (w : world)
    : (exn + Child) * test * world :=
  let prepared : (exn + str) * test :=
    if _valgrind self then
      let self := set_log self (log self ++ [u "running valgrind " ++ cmd ++ u "..."]) in
      match dir self with
      | None => (inl (OtherException "AttributeError"), self)
      | Some d =>
          (inr (u "valgrind --show-leak-kinds=all --xml=yes --xml-file="
                  ++ path_join d (u "valgrind.xml") ++ u " -- " ++ cmd), self)
      end
    else
      (inr cmd, set_log self (log self ++ [u "running " ++ cmd ++ u "..."])) in
  match prepared with
  | (inl e, self) => (inl e, self, w)
  | (inr cmd, self) =>
      let env := default ∅ env in
      let environ' := environ_update (environ w) env in
      let env : option (gmap (list N) (list N)) := None in
      let cmd := u "bash -c " ++ quote cmd in
      let call := {| call_cmd := cmd; call_env := env; call_environ := environ' |} in
      let w := {| cfg := cfg w; fs := fs w; cwd := cwd w; environ := environ';
                  spawned := spawned w ++ [call] |} in
      let c := {| child := spawnu call; output := Lines []; exitstatus := None |} in
      (inr c, set_children self (children self ++ [c]), w)
  end.

(* ===================================================================== *)
(** * The valgrind report: [Checks._check_valgrind] and [valgrind] *)
(* ===================================================================== *)

Module ET.

(** An XML element: its tag, its text ([None] when it has none) and its
    sub-elements in document order. *)
#[local] Unset Elimination Schemes.
Inductive element : Type :=
  | Element (tag : str) (text : option str) (subelements : list element).
#[local] Set Elimination Schemes.

Definition tag (e : element) : str := let 'Element t _ _ := e in t.
Definition text (e : element) : option str := let 'Element _ t _ := e in t.
Definition subelements (e : element) : list element :=
  let 'Element _ _ l := e in l.

(** [iterfind] with a path of tags ["a/b"]: the [b] children of the [a]
    children, in document order; [find] is the first of them. *)
Fixpoint iterfind_from (path : list str) (es : list element) : list element :=
  match path with
  | [] => es
  | t :: path' =>
      iterfind_from path'
        (flat_map (fun e => filter (fun c => tag c = t) (subelements e)) es)
  end.

Definition iterfind (path : list str) (e : element) : list element :=
  iterfind_from path [e].

Definition find (path : list str) (e : element) : option element :=
  head (iterfind path e).

End ET.

Fixpoint drop_while (f : N -> bool) (s : str) : str :=
  match s with
  | [] => []
  | c :: s' => if f c then drop_while f s' else s
  end.

(** [os.path.dirname(p)] (POSIX): everything up to the last slash, without
    trailing slashes unless it is made of slashes only. *)
Definition dirname (p : str) : str :=
  let head := rev (drop_while (fun c => negb (c =? 47)) (rev p)) in
  match head with
  | [] => head
  | _ :: _ =>
      if forallb (N.eqb 47) head then head
      else rev (drop_while (N.eqb 47) (rev head))
  end.

(** ["{}".format(x)] for a text or [None]. *)
Definition format (x : option str) : str := default (u "None") x.

(** The file [name] of the directory [d]. *)
Fixpoint entry_named (name : str) (entries : list (list N * node)) : option node :=
  match entries with
  | [] => None
  | (n, x) :: entries' =>
      if bool_decide (n = name) then Some x else entry_named name entries'
  end.

(** [ET.ElementTree(file=os.path.join(self.dir, self._valgrind_log))];
    [parse] is the XML parser. *)
Definition read_report (parse : str -> option ET.element) (w : world) (d : str)
    : exn + ET.element :=
  match fs w !! d with
  | Some (Dir entries) =>
      match entry_named (u "valgrind.xml") entries with
      | Some (File content) =>
          match parse content with
          | Some root => inr root
          | None => inl (OtherException "ParseError")
          end
      | _ => inl (OtherException "IOError")
      end
  | _ => inl (OtherException "IOError")
  end.

(** The loop over the stack frames of one error: the first frame whose
    object lies in the check's directory gives the location, when it has
    both a file and a line, and ends the loop. *)
Fixpoint first_frame (d : str) (frames : list ET.element) : exn + option str :=
  match frames with
  | [] => inr None
  | frame :: frames' =>
      match ET.find [u "obj"] frame with
      | None => first_frame d frames'
      | Some obj =>
          match ET.text obj with
          | None => inl (OtherException "TypeError")
          | Some p =>
              if bool_decide (dirname p = d) then
                match ET.find [u "file"] frame, ET.find [u "line"] frame with
                | Some f, Some l =>
                    inr (Some (u ": (file: " ++ format (ET.text f)
                                 ++ u ", line: " ++ format (ET.text l) ++ u ")"))
                | _, _ => inr None
                end
              else first_frame d frames'
          end
      end
  end.

(** The message reported for one [error] element. *)
Definition message (d : str) (error : ET.element) : exn + str :=
  match ET.find [u "kind"] error with
  | None => inl (OtherException "AttributeError")
  | Some k =>
      match ET.text k with
      | None => inl (OtherException "AttributeError")
      | Some kind =>
          match ET.find (if startswith kind (u "Leak_")
                         then [u "xwhat"; u "text"] else [u "what"]) error with
          | None => inl (OtherException "AttributeError")
          | Some e =>
              let what := ET.text e in
              match first_frame d (ET.iterfind [u "stack"; u "frame"] error) with
              | inl exc => inl exc
              | inr location =>
                  match what with
                  | None => inl (OtherException "TypeError")
                  | Some what => inr ([TAB] ++ what ++ default [] location)
                  end
              end
          end
      end
  end.

(** The loop over the errors of the report, with the set [reported] of the
    messages already logged. *)
Fixpoint report_errors (d : str) (errors : list ET.element)
    (reported : gset (list N)) (lg : list str)
    : option exn * gset (list N) * list str :=
  match errors with
  | [] => (None, reported, lg)
  | error :: errors' =>
      match message d error with
      | inl exc => (Some exc, reported, lg)
      | inr msg =>
          if bool_decide (msg ∈ reported)
          then report_errors d errors' reported lg
          else report_errors d errors' ({[msg]} ∪ reported) (lg ++ [msg])
      end
  end.

(** [Checks._check_valgrind] *)
Definition _check_valgrind (parse : str -> option ET.element) (self : test)
    (w : world) : option exn * test :=
  match dir self with
  | None => (Some (OtherException "AttributeError"), self)
  | Some d =>
      match read_report parse w d with
      | inl exc => (Some exc, self)
      | inr xml =>
          let lg := log self ++ [u "checking for valgrind errors... "] in
          let '(raised, reported, lg) :=
            report_errors d (ET.iterfind [u "error"] xml) ∅ lg in
          match raised with
          | Some exc => (Some exc, set_log self lg)
          | None =>
              if bool_decide (reported = ∅) then (None, set_log self lg)
              else (Some (Error (Some (Text (u "valgrind tests failed; rerun with --log for more information.")))
                                None FAIL), set_log self lg)
          end
      end
  end.

(** The [wrapper] that [valgrind(func)] returns; [installed] is whether
    [which("valgrind")] finds the tool. *)
Definition valgrind_wrapper (installed : bool)
    (parse : str -> option ET.element) (func : body) : body :=
  fun self w =>
    if negb installed
    then (Some (Error (Some (Text (u "valgrind not installed"))) None SKIP), self, w)
    else
      let self := set_valgrind self true in
      match func self w with
      | (None, self, w) =>
          let '(raised, self) := _check_valgrind parse self w in
          (raised, set_valgrind self false, w)
      | (Some exc, self, w) => (Some exc, set_valgrind self false, w)
      end.

(* ===================================================================== *)
(** * The process session: [stdin], [reject], [exit] and [kill] *)
(* ===================================================================== *)

(** What [sendline] and [sendeof] of the [pexpect] child do with a call:
    they return or raise.  An exception of the child that a method does not
    handle ([EOF], for one) leaves the method as it is. *)
Inductive send_result : Type :=
  | Sent
  | SendRaised (class : string).

(** The [line] argument of [stdin]: a text, or the class [EOF]. *)
Inductive input : Type :=
  | Line (s : str)
  | InputEOF.

(** [Child.stdin(line, prompt, timeout)] *)
Definition stdin
    (expect : pyvalue -> Z -> Spawn -> expect_result * Spawn)
    (sendline : str -> Spawn -> send_result * Spawn)
    (sendeof : Spawn -> send_result * Spawn)
    (self : Child) (lg : list str)
    (line : input) (prompt : bool) (timeout : Z)
    : option exn * Child * list str :=
  let lg :=
    match line with
    | InputEOF => lg ++ [u "sending EOF..."]
    | Line s => lg ++ [u "sending input " ++ s ++ u "..."]
    end in
  let prompted : option exn * Spawn :=
    if prompt then
      match expect (Str (u ".+")) timeout (child self) with
      | (Matched, c) => (None, c)
      | (RaisedTIMEOUT, c) =>
          (Some (Error (Some (Text (u "expected prompt for input, found none")))
                       None FAIL), c)
      | (RaisedEOF, c) => (Some (OtherException "EOF"), c)
      | (RaisedOther cls, c) => (Some (OtherException cls), c)
      end
    else (None, child self) in
  match prompted with
  | (Some e, c) => (Some e, set_child self c, lg)
  | (None, c) =>
      match (match line with
             | InputEOF => sendeof c
             | Line s => sendline s c
             end) with
      | (Sent, c) => (None, set_child self c, lg)
      | (SendRaised cls, c) => (Some (OtherException cls), set_child self c, lg)
      end
  end.


(** [str(n)] of an integer, and ["{}".format(x)] of an integer or [None]. *)
Definition str_of_int (n : Z) : str :=
  u (NilZero.string_of_int (Z.to_int n)).

Definition format_status (x : option Z) : str :=
  match x with
  | Some n => str_of_int n
  | None => u "None"
  end.

(** What [exit] returns: the [Child] itself, or the exit status. *)
Inductive exit_value : Type :=
  | ExitSelf
  | ExitStatus (status : option Z).

(** [Child.exit(code, timeout)]; [wait] is [Child.wait]. *)
Definition exit
    (wait : Z -> Child -> option exn * Child)
    (self : Child) (lg : list str) (code : option Z) (timeout : Z)
    : (exn + exit_value) * Child * list str :=
  match wait timeout self with
  | (Some e, self) => (inl e, self, lg)
  | (None, self) =>
      match code with
      | None => (inr (ExitStatus (exitstatus self)), self, lg)
      | Some code =>
          let lg := lg ++ [u "checking that program exited with status "
                             ++ str_of_int code ++ u "..."] in
          if bool_decide (exitstatus self = Some code)
          then (inr ExitSelf, self, lg)
          else (inl (Error (Some (Text (u "expected exit code " ++ str_of_int code
                                          ++ u ", not "
                                          ++ format_status (exitstatus self))))
                           None FAIL), self, lg)
      end
  end.

(* ===================================================================== *)
(** * [Checks.require] *)
(* ===================================================================== *)

(** [Checks.require] of a sequence of paths; [exists_] is [os.path.exists] in the current
    state of the file system.  The log line of a path is written before the
    path is looked for. *)
Fixpoint require (exists_ : str -> bool) (lg : list str) (paths : list str)
    : option exn * list str :=
  match paths with
  | [] => (None, lg)
  | path :: paths' =>
      let lg := lg ++ [u "Checking that " ++ path ++ u " exists..."] in
      if exists_ path then require exists_ lg paths'
      else (Some (Error (Some (Text (path ++ u " not found"))) None FAIL), lg)
  end.

(* ===================================================================== *)
(** * [import_checks]: reading the identifier *)
(* ===================================================================== *)

(** [s.split(sep)] for a separator of one character *)
Fixpoint split (s : str) (sep : N) : list str :=
  match s with
  | [] => [[]]
  | c :: s' =>
      if c =? sep then [] :: split s' sep
      else match split s' sep with
           | [] => [[c]]
           | part :: parts => (c :: part) :: parts
           end
  end.

(** The first part of [import_checks]: the identifier [path/to/check@org/repo]
    is taken apart, with [cs50/checks] for repository when the identifier
    does not split in two at ["@"]; a repository that does not split in two
    at ["/"] is an [InternalError].  The result is the slug, the
    organisation and the repository. *)
Definition identifier_parts (identifier : str) : exn + (list N * list N * list N) :=
  let '(slug, repo) :=
    match split identifier 64 with
    | [slug; repo] => (slug, repo)
    | _ => (identifier, u "cs50/checks")
    end in
  match split repo 47 with
  | [org; repo] => inr (slug, org, repo)
  | _ =>
      inl (InternalError
             (u "expected repository to be of the form username/repository, but got "
                ++ [dquote] ++ repo ++ [dquote]))
  end.

(** [config.check_dir], as [import_checks] computes it from
    [config.args.checkdir] and the parts of the identifier. *)
Definition check_dir (checkdir slug org repo : str) : str :=
  let checks_root := path_join (path_join checkdir org) repo in
  path_join (path_join checks_root (replace slug (u "/") (u "/"))) (u "check50").

(* ===================================================================== *)
(** * Notions used in the statements, and instances to try them on *)
(* ===================================================================== *)

(** A text is plain when [repr] has nothing to escape in it: printable
    ASCII characters, no backslash, and not both kinds of quotation mark. *)
Definition plain_char (c : N) : bool :=
  (32 <=? c) && (c <? 127) && negb (c =? backslash).

Definition plain (s : str) : bool :=
  forallb plain_char s
  && negb (existsb (N.eqb squote) s && existsb (N.eqb dquote) s).

(** A character that is neither a control character nor DEL. *)
Definition visible (c : N) : Prop := 32 <= c /\ c <> 127.

(** What a skipped check looks like: only its verdict and rationale are
    written. *)
Definition skipped (self : test) : test :=
  {| _testMethodName := _testMethodName self; result := SKIP;
     rationale := Some (Text (u "can't check until a frown turns upside down"));
     helpers := helpers self; log := log self; children := children self;
     dir := dir self; _valgrind := _valgrind self |}.

(** The line [stdout] logs before it looks for the output. *)
Definition checking_for (shown : str) : str :=
  u "checking for output " ++ [dquote] ++ shown ++ [dquote] ++ u "...".

(** [needle] occurs in [hay] as a run of consecutive characters. *)
Definition occurs (needle hay : str) : Prop :=
  exists l1 l2, hay = l1 ++ needle ++ l2.

(** What the session has to offer to an expectation: what is buffered and
    what the process will still write. *)
Definition offered (c : Spawn) : str := buffer c ++ concat (pending c).

(** A run to try the chain on: a temporary directory holding the pristine
    copy only, a body that fails and one that passes. *)
Definition failing : body :=
  fun self w => (Some (Error (Some (Text (u "expected exit code 0, not 1"))) None FAIL), self, w).

Definition passing : body := fun self w => (None, self, w).

Definition fresh_world : world :=
  {| cfg := {| tempdir := u "/tmp/t"; test_cases := []; test_results := ∅ |};
     fs := {[ u "/tmp/t/_" := Dir [(u "hello.c", File (u "int main(void) {}"))] ]};
     cwd := u "/home/student"; environ := ∅; spawned := [] |}.

(** The same directory after the check [exists] has failed. *)
Definition failed_world : world :=
  set_test_results (insert (u "exists") FAIL) fresh_world.

(** A report with the same leak entered twice, its stack passing through
    the student's program, and the check directory that holds it. *)
Definition leak_entry : ET.element :=
  ET.Element (u "error") None
    [ET.Element (u "kind") (Some (u "Leak_DefinitelyLost")) [];
     ET.Element (u "xwhat") None
       [ET.Element (u "text") (Some (u "40 bytes in 1 blocks are definitely lost")) []];
     ET.Element (u "stack") None
       [ET.Element (u "frame") None
          [ET.Element (u "obj") (Some (u "/usr/lib/libc.so")) [];
           ET.Element (u "fn") (Some (u "malloc")) []];
        ET.Element (u "frame") None
          [ET.Element (u "obj") (Some (u "/tmp/t/leaks/a.out")) [];
           ET.Element (u "file") (Some (u "leak.c")) [];
           ET.Element (u "line") (Some (u "5")) []]]].

Definition leak_report : ET.element :=
  ET.Element (u "valgrindoutput") None
    [ET.Element (u "pid") (Some (u "42")) []; leak_entry; leak_entry].

Definition leak_world : world :=
  {| cfg := {| tempdir := u "/tmp/t"; test_cases := []; test_results := ∅ |};
     fs := {[ u "/tmp/t/leaks" := Dir [(u "valgrind.xml", File (u "<valgrindoutput/>"))] ]};
     cwd := u "/tmp/t/leaks"; environ := ∅; spawned := [] |}.

Definition leak_test : test :=
  {| _testMethodName := u "leaks"; result := FAIL; rationale := None;
     helpers := None; log := [u "running valgrind ./a.out..."]; children := [];
     dir := Some (u "/tmp/t/leaks"); _valgrind := true |}.

Definition leak_message : str :=
  [TAB] ++ u "40 bytes in 1 blocks are definitely lost: (file: leak.c, line: 5)".

(** A child that writes a line and closes its output. *)
Definition says (out : str) : Spawn :=
  {| before := None; after := AfterNone; buffer := []; pending := [out];
     closes := true |}.

(** Three sessions: a child that stays silent, one that writes something
    else and closes, and one that writes before it closes. *)
Definition silent : Spawn :=
  {| before := None; after := AfterNone; buffer := []; pending := [];
     closes := false |}.

Definition session (c : Spawn) : Child :=
  {| child := c; output := Lines []; exitstatus := None |}.

Definition no_wait : Z -> Child -> option exn * Child := fun _ c => (None, c).

(** An entry written by [addSuccess] carries a rationale, not an
    exception. *)
Definition reported (e : entry) : Prop := exists r, entry_rationale e = inr r.


(** The log lines of [stdin], [exit] and [require]. *)
Definition sending (line : input) : str :=
  match line with
  | InputEOF => u "sending EOF..."
  | Line s => u "sending input " ++ s ++ u "..."
  end.

Definition checking_status (code : Z) : str :=
  u "checking that program exited with status " ++ str_of_int code ++ u "...".

Definition checking_that (path : str) : str :=
  u "Checking that " ++ path ++ u " exists...".

(** A stack frame that does not lie in the directory [d]: it names no
    object, or an object whose directory is another one. *)
Definition outside (d : str) (frame : ET.element) : Prop :=
  ET.find [u "obj"] frame = None
  \/ exists obj p, ET.find [u "obj"] frame = Some obj
                   /\ ET.text obj = Some p /\ dirname p <> d.

(** A stack frame in the C library, one in the student's program, and an
    error that is not a leak and whose stack stays in the library. *)
Definition library_frame : ET.element :=
  ET.Element (u "frame") None
    [ET.Element (u "obj") (Some (u "/usr/lib/libc.so")) [];
     ET.Element (u "fn") (Some (u "malloc")) []].


Definition invalid_read : ET.element :=
  ET.Element (u "error") None
    [ET.Element (u "kind") (Some (u "InvalidRead")) [];
     ET.Element (u "what") (Some (u "Invalid read of size 4")) [];
     ET.Element (u "stack") None [library_frame]].

(** A body that leaves the report of [leak_world] behind. *)
Definition leaky : body := fun self _ => (None, self, leak_world).

(* ===================================================================== *)
(** * The model on small inputs *)
(* ===================================================================== *)

Example raw_of_the_sentinel : Mismatch.raw (fun _ => true) EOF = u "EOF".
Proof. reflexivity. Qed.

Example quote_leaves_safe_text : quote (u "./hello") = u "./hello".
Proof. reflexivity. Qed.

Example quote_wraps_unsafe_text : quote (u "echo hi") = u "'echo hi'".
Proof. reflexivity. Qed.

Example dirname_of_program : dirname (u "/tmp/t/leaks/a.out") = u "/tmp/t/leaks".
Proof. reflexivity. Qed.

Example crlf_round_trip :
  from_crlf (to_crlf (u "a" ++ [LF] ++ u "b")) = u "a" ++ [LF] ++ u "b".
Proof. reflexivity. Qed.

Example compile_dot :
  Pexpect.compile (u "a.c") =
  Pexpect.Regex [(Pexpect.Char 97, Pexpect.Once); (Pexpect.AnyChar, Pexpect.Once);
                 (Pexpect.Char 99, Pexpect.Once)].
Proof. reflexivity. Qed.

Example search_greedy :
  Pexpect.search [(Pexpect.Char 97, Pexpect.Plus); (Pexpect.Char 97, Pexpect.Once)]
                 (u "baaab") = Some (u "b", u "aaa", u "b").
Proof. reflexivity. Qed.

(* ===================================================================== *)
(** * Properties: the rendering of diagnostics *)
(* ===================================================================== *)

Section Rendering.

Variable isprintable : N -> bool.

Lemma strip_ends_quoted (q : N) (s : str) : strip_ends (q :: s ++ [q]) = s.
Proof.
  unfold strip_ends. cbn [length drop].
  rewrite length_app. cbn [length].
  replace (S (length s + 1) - 2)%nat with (length s) by lia.
  rewrite drop_0. apply take_app_length.
Qed.

Lemma strip_ends_repr (s : str) :
  strip_ends (repr isprintable s) = repr_body isprintable s.
Proof. apply strip_ends_quoted. Qed.

Lemma repr_char_plain (q c : N) :
  plain_char c = true -> c <> q -> repr_char isprintable q c = [c].
Proof.
  unfold plain_char, repr_char, backslash, TAB, LF, CR.
  intros Hc Hq.
  apply andb_prop in Hc as [Hc Hb]. apply andb_prop in Hc as [Hlo Hhi].
  apply N.leb_le in Hlo. apply N.ltb_lt in Hhi.
  apply negb_true_iff, N.eqb_neq in Hb.
  apply N.eqb_neq in Hq. rewrite Hq.
  apply N.eqb_neq in Hb. rewrite Hb. cbn [orb].
  destruct (N.eqb_spec c 9); [lia|].
  destruct (N.eqb_spec c 10); [lia|].
  destruct (N.eqb_spec c 13); [lia|].
  destruct (N.ltb_spec c 32); [lia|].
  destruct (N.eqb_spec c 127); [lia|]. cbn [orb].
  destruct (N.ltb_spec c 127); [reflexivity|lia].
Qed.

Lemma flat_map_repr_char_plain (q : N) (s : str) :
  forallb plain_char s = true -> existsb (N.eqb q) s = false ->
  flat_map (repr_char isprintable q) s = s.
Proof.
  induction s as [|c s IH]; [reflexivity|].
  cbn [forallb existsb flat_map]. intros Hp Hq.
  apply andb_prop in Hp as [Hc Hp].
  apply orb_false_iff in Hq as [Hqc Hq].
  rewrite (repr_char_plain q c Hc), (IH Hp Hq); [reflexivity|].
  apply N.eqb_neq in Hqc. congruence.
Qed.

Lemma repr_body_plain (s : str) :
  plain s = true -> repr_body isprintable s = s.
Proof.
  unfold plain, repr_body, repr_quote. intros H.
  apply andb_prop in H as [Hp Hq]. apply negb_true_iff in Hq.
  apply flat_map_repr_char_plain; [exact Hp|].
  destruct (existsb (N.eqb squote) s) eqn:Hs;
    destruct (existsb (N.eqb dquote) s) eqn:Hd; cbn in *;
    congruence.
Qed.

(** C8, as the code has it.  [Mismatch.raw] renders a text between double
    quotation marks; what stands between them is the text as [repr]
    escapes it, whole when that has at most 15 characters, and otherwise
    its first 15 characters followed by three dots.  For a plain text
    (printable ASCII, no backslash, not both kinds of quotation mark) the
    escaped text is the text itself. *)
Theorem raw_truncates_the_escaped_text (s : str) :
  Mismatch.raw isprintable (Str s) =
    [dquote]
      ++ (if (15 <? length (repr_body isprintable s))%nat
          then take 15 (repr_body isprintable s) ++ u "..."
          else repr_body isprintable s)
      ++ [dquote]
  /\ (plain s = true ->
      Mismatch.raw isprintable (Str s) =
        [dquote] ++ (if (15 <? length s)%nat then take 15 s ++ u "..." else s)
          ++ [dquote]).
Proof.
  assert (Hraw : Mismatch.raw isprintable (Str s) =
    [dquote]
      ++ (if (15 <? length (repr_body isprintable s))%nat
          then take 15 (repr_body isprintable s) ++ u "..."
          else repr_body isprintable s)
      ++ [dquote]).
  { unfold Mismatch.raw, Mismatch.raw_text.
    rewrite strip_ends_repr. reflexivity. }
  split; [exact Hraw|].
  intros Hp. rewrite Hraw, (repr_body_plain s Hp). reflexivity.
Qed.

End Rendering.

Lemma raw_truncates_the_escaped_text_witness :
  plain (u "a fairly long expected line") = true
  /\ Mismatch.raw (fun _ => true) (Str (u "a fairly long expected line"))
     = [dquote] ++ u "a fairly long e..." ++ [dquote].
Proof.
  split; [reflexivity|].
  exact (proj2 (raw_truncates_the_escaped_text (fun _ => true)
                 (u "a fairly long expected line")) eq_refl).
Defined.

(** C8 as stated fails: a text under the threshold is not rendered
    unchanged (quotation marks are put around it), and a text of eight line
    feeds, well under 15 characters, is cut, because its escaped form has
    16. *)
Lemma raw_is_not_the_text_unchanged :
  (length (u "hi") <= 15)%nat
  /\ Mismatch.raw (fun _ => true) (Str (u "hi")) <> u "hi"
  /\ Mismatch.raw (fun _ => true) (Str (u "hi")) = [dquote] ++ u "hi" ++ [dquote]
  /\ (length (replicate 8 LF) <= 15)%nat
  /\ Mismatch.raw (fun _ => true) (Str (replicate 8 LF))
     = [dquote] ++ u "\n\n\n\n\n\n\n\..." ++ [dquote].
Proof.
  split; [vm_compute; lia|]. split; [vm_compute; discriminate|].
  split; [reflexivity|]. split; [vm_compute; lia|]. reflexivity.
Qed.

(* ===================================================================== *)
(** * Properties: the gate on the dependency *)
(* ===================================================================== *)

Section Gate.

Variables (name : str) (dependency : option str).
Variables (self : test) (w : world).

Lemma wrapper_skips (func : body) :
  truthy dependency = true ->
  get (test_results (cfg w)) dependency <> PASS ->
  wrapper name dependency func self w
  = (None, skipped self, set_test_results (insert name SKIP) w).
Proof.
  intros Ht Hne. unfold wrapper. rewrite Ht.
  rewrite bool_decide_eq_false_2 by exact Hne. reflexivity.
Qed.

(** C1.  A check whose dependency is set (in the sense the code tests it:
    neither [None] nor the empty text) and has a recorded verdict other
    than PASS gets the verdict SKIP, in the instance and in
    [config.test_results]; the wrapper returns without raising; nothing
    depends on the body, which is therefore not run; and the directory
    tree, the current directory and the instance's [dir] are as they
    were: no directory is made for the check. *)
Theorem dependency_not_passed_skips (func : body) :
  truthy dependency = true ->
  get (test_results (cfg w)) dependency <> PASS ->
  exists self' w',
    wrapper name dependency func self w = (None, self', w')
    /\ result self' = SKIP
    /\ test_results (cfg w') !! name = Some SKIP
    /\ (forall func' : body,
          wrapper name dependency func' self w = (None, self', w'))
    /\ fs w' = fs w /\ cwd w' = cwd w /\ spawned w' = spawned w
    /\ dir self' = dir self.
Proof.
  intros Ht Hne.
  exists (skipped self), (set_test_results (insert name SKIP) w).
  split; [by apply wrapper_skips|].
  split; [reflexivity|].
  split; [cbn; apply lookup_insert_eq|].
  split; [intros func'; by apply wrapper_skips|].
  repeat split.
Qed.

(** C7, as the code has it.  The rationale of a check skipped for its
    dependency is the text "can't check until a frown turns upside
    down". *)
Theorem skipped_rationale (func : body) :
  truthy dependency = true ->
  get (test_results (cfg w)) dependency <> PASS ->
  rationale (wrapper name dependency func self w).1.2
  = Some (Text (u "can't check until a frown turns upside down")).
Proof.
  intros Ht Hne. by rewrite wrapper_skips.
Qed.

End Gate.

Lemma dependency_not_passed_skips_witness :
  exists self' w',
    wrapper (u "compiles") (Some (u "exists")) passing
            (new_test (u "compiles")) failed_world = (None, self', w')
    /\ result self' = SKIP
    /\ test_results (cfg w') !! u "compiles" = Some SKIP
    /\ (forall func' : body,
          wrapper (u "compiles") (Some (u "exists")) func'
                  (new_test (u "compiles")) failed_world = (None, self', w'))
    /\ fs w' = fs failed_world /\ cwd w' = cwd failed_world
    /\ spawned w' = spawned failed_world
    /\ dir self' = dir (new_test (u "compiles")).
Proof.
  apply (dependency_not_passed_skips (u "compiles") (Some (u "exists"))
           (new_test (u "compiles")) failed_world passing).
  - reflexivity.
  - vm_compute. discriminate.
Defined.

Lemma skipped_rationale_witness :
  rationale (wrapper (u "compiles") (Some (u "exists")) passing
                     (new_test (u "compiles")) failed_world).1.2
  = Some (Text (u "can't check until a frown turns upside down")).
Proof.
  apply (skipped_rationale (u "compiles") (Some (u "exists"))
           (new_test (u "compiles")) failed_world passing).
  - reflexivity.
  - vm_compute. discriminate.
Defined.

(** C7 as stated fails: the rationale of a check skipped for a failed
    dependency is not the text "upstream check did not pass". *)
Lemma skipped_rationale_is_another_text :
  truthy (Some (u "exists")) = true
  /\ get (test_results (cfg failed_world)) (Some (u "exists")) = FAIL
  /\ result (wrapper (u "compiles") (Some (u "exists")) passing
                     (new_test (u "compiles")) failed_world).1.2 = SKIP
  /\ rationale (wrapper (u "compiles") (Some (u "exists")) passing
                        (new_test (u "compiles")) failed_world).1.2
     <> Some (Text (u "upstream check did not pass")).
Proof.
  split; [reflexivity|]. split; [reflexivity|]. split; [reflexivity|].
  vm_compute. discriminate.
Qed.

Section MissingVerdict.

Variables (name d : str) (self : test) (w : world).

(** C9.  A dependency without any recorded verdict is read as [None] by
    [config.test_results.get], the very value of SKIP; the check is then
    skipped whatever its body is, and ends in the same state as it does
    when the dependency is recorded as FAIL. *)
Theorem dependency_without_verdict_skips (func : body) :
  d <> [] ->
  test_results (cfg w) !! d = None ->
  get (test_results (cfg w)) (Some d) = SKIP
  /\ (forall func' : body,
        wrapper name (Some d) func' self w
        = (None, skipped self, set_test_results (insert name SKIP) w))
  /\ fs (set_test_results (insert name SKIP) w) = fs w
  /\ (forall w2 : world,
        test_results (cfg w2) !! d = Some FAIL ->
        (wrapper name (Some d) func self w2).1
        = (wrapper name (Some d) func self w).1).
Proof.
  intros Hd Hnone.
  assert (Hget : get (test_results (cfg w)) (Some d) = SKIP)
    by (cbn; by rewrite Hnone).
  assert (Ht : truthy (Some d) = true) by (by destruct d).
  split; [exact Hget|].
  split.
  { intros func'. apply wrapper_skips; [exact Ht|]. by rewrite Hget. }
  split; [reflexivity|].
  intros w2 Hfail.
  rewrite !wrapper_skips; try exact Ht; try reflexivity.
  - by rewrite Hget.
  - cbn. by rewrite Hfail.
Qed.

End MissingVerdict.

Lemma dependency_without_verdict_skips_witness :
  get (test_results (cfg fresh_world)) (Some (u "exists")) = SKIP
  /\ (forall func' : body,
        wrapper (u "compiles") (Some (u "exists")) func'
                (new_test (u "compiles")) fresh_world
        = (None, skipped (new_test (u "compiles")),
           set_test_results (insert (u "compiles") SKIP) fresh_world))
  /\ fs (set_test_results (insert (u "compiles") SKIP) fresh_world) = fs fresh_world
  /\ (forall w2 : world,
        test_results (cfg w2) !! u "exists" = Some FAIL ->
        (wrapper (u "compiles") (Some (u "exists")) passing
                 (new_test (u "compiles")) w2).1
        = (wrapper (u "compiles") (Some (u "exists")) passing
                   (new_test (u "compiles")) fresh_world).1).
Proof.
  apply (dependency_without_verdict_skips (u "compiles") (u "exists")
           (new_test (u "compiles")) fresh_world passing).
  - discriminate.
  - reflexivity.
Defined.

(* ===================================================================== *)
(** * Properties: registration *)
(* ===================================================================== *)

(** C6, as the code has it.  Declaring checks appends their names to
    [config.test_cases] in the order of the declarations and raises
    nothing, whatever the names are: a name declared again is listed
    again.  The verdicts and the temporary directory are left as they
    are. *)
Theorem declarations_are_never_rejected (names : list str) (c : config) :
  exists c',
    declare_all names c = inr c'
    /\ test_cases c' = test_cases c ++ names
    /\ test_results c' = test_results c
    /\ tempdir c' = tempdir c.
Proof.
  revert c. induction names as [|name names IH]; intros c.
  - exists c. cbn. by rewrite app_nil_r.
  - cbn [declare_all check_register].
    destruct (IH {| tempdir := tempdir c; test_cases := test_cases c ++ [name];
                    test_results := test_results c |})
      as (c' & Heq & Hcases & Hres & Htmp).
    exists c'. rewrite Heq, Hcases. cbn [test_cases].
    by rewrite <- app_assoc.
Qed.

(** C6 as stated fails: the second declaration of a name is accepted, and
    the name is then listed twice. *)
Lemma duplicate_name_is_accepted :
  exists c1 c2,
    check_register (u "exists")
      {| tempdir := u "/tmp/t"; test_cases := []; test_results := ∅ |} = inr c1
    /\ check_register (u "exists") c1 = inr c2
    /\ test_cases c2 = [u "exists"; u "exists"]
    /\ (forall msg, check_register (u "exists") c1 <> inl (InternalError msg)).
Proof.
  do 2 eexists. split; [reflexivity|]. split; [reflexivity|].
  split; [reflexivity|]. intros msg. discriminate.
Qed.

(* ===================================================================== *)
(** * Properties: a chain of dependencies *)
(* ===================================================================== *)

Section Chain.

Variables (a b c : str).
Variables (fa fb fc : body).
Variable w : world.

Hypothesis a_named : a <> [].
Hypothesis b_named : b <> [].
Hypothesis a_b : a <> b.
Hypothesis a_c : a <> c.
Hypothesis b_c : b <> c.

(** The pristine copy of the submission is there, and no directory of the
    first check yet. *)
Hypothesis pristine :
  exists entries, fs w !! path_join (tempdir (cfg w)) (u "_") = Some (Dir entries).
Hypothesis fresh : fs w !! path_join (tempdir (cfg w)) a = None.

(** The first check fails: its body raises an [Error] whose result is
    FAIL. *)
Hypothesis a_fails :
  forall self w0, exists r h self' w',
    fa self w0 = (Some (Error r h FAIL), self', w').

Lemma truthy_named (d : str) : d <> [] -> truthy (Some d) = true.
Proof. by destruct d. Qed.

(** C4.  With [a] failing, [b] depending on [a] and [c] on [b], the run
    goes through the three checks and records FAIL, SKIP, SKIP, both in
    the list of results and in [config.test_results]. *)
Theorem skip_goes_down_the_chain :
  let checks : gmap (list N) method :=
    <[c := Method (Some b) fc]>
      (<[b := Method (Some a) fb]> (<[a := Method None fa]> ∅)) in
  exists suite results w',
    make_suite checks [a; b; c] = Some suite
    /\ run_suite suite [] w = (Completed, results, w')
    /\ map status results = [FAIL; SKIP; SKIP]
    /\ test_results (cfg w') !! a = Some FAIL
    /\ test_results (cfg w') !! b = Some SKIP
    /\ test_results (cfg w') !! c = Some SKIP.
Proof.
  intros checks.
  assert (Ha : checks !! a = Some (Method None fa)).
  { unfold checks. rewrite lookup_insert_ne by congruence.
    rewrite lookup_insert_ne by congruence. apply lookup_insert_eq. }
  assert (Hb : checks !! b = Some (Method (Some a) fb)).
  { unfold checks. rewrite lookup_insert_ne by congruence.
    apply lookup_insert_eq. }
  assert (Hc : checks !! c = Some (Method (Some b) fc)).
  { unfold checks. apply lookup_insert_eq. }
  destruct pristine as [entries Hsrc].
  set (self0 :=
    {| _testMethodName := a; result := FAIL; rationale := None;
       helpers := None; log := []; children := [];
       dir := Some (path_join (tempdir (cfg w)) a); _valgrind := false |}).
  set (w0 :=
    {| cfg := cfg w;
       fs := <[path_join (tempdir (cfg w)) a := Dir entries]> (fs w);
       cwd := path_join (tempdir (cfg w)) a;
       environ := environ w; spawned := spawned w |}).
  destruct (a_fails self0 w0) as (r & h & self1 & w1 & Hfa).
  assert (Hrun_a :
    wrapper a None fa (new_test a) w
    = (None,
       {| _testMethodName := _testMethodName self1; result := FAIL;
          rationale := r; helpers := h; log := log self1;
          children := children self1; dir := dir self1;
          _valgrind := _valgrind self1 |},
       set_test_results (insert a FAIL) w1)).
  { unfold wrapper. cbn [truthy andb].
    cbn [new_test _testMethodName result rationale helpers log children
         _valgrind].
    unfold copytree. rewrite Hsrc, fresh.
    fold self0. fold w0. rewrite Hfa. reflexivity. }
  eexists _, _, _.
  split. { cbn [make_suite]. rewrite Ha, Hb, Hc. reflexivity. }
  cbn [run_suite dependency func]. rewrite Hrun_a.
  rewrite (wrapper_skips b (Some a)); cycle 1.
  { by apply truthy_named. }
  { cbn. rewrite lookup_insert_eq. discriminate. }
  rewrite (wrapper_skips c (Some b)); cycle 1.
  { by apply truthy_named. }
  { cbn. rewrite lookup_insert_eq. discriminate. }
  split; [reflexivity|].
  split; [reflexivity|].
  cbn [set_test_results cfg test_results].
  split.
  { rewrite lookup_insert_ne by congruence.
    rewrite lookup_insert_ne by congruence. apply lookup_insert_eq. }
  split.
  { rewrite lookup_insert_ne by congruence. apply lookup_insert_eq. }
  apply lookup_insert_eq.
Qed.

End Chain.

Lemma skip_goes_down_the_chain_witness :
  exists suite results w',
    make_suite
      (<[u "C" := Method (Some (u "B")) passing]>
         (<[u "B" := Method (Some (u "A")) passing]>
            (<[u "A" := Method None failing]> ∅)))
      [u "A"; u "B"; u "C"] = Some suite
    /\ run_suite suite [] fresh_world = (Completed, results, w')
    /\ map status results = [FAIL; SKIP; SKIP]
    /\ test_results (cfg w') !! u "A" = Some FAIL
    /\ test_results (cfg w') !! u "B" = Some SKIP
    /\ test_results (cfg w') !! u "C" = Some SKIP.
Proof.
  apply (skip_goes_down_the_chain (u "A") (u "B") (u "C") failing passing passing
           fresh_world).
  - discriminate.
  - discriminate.
  - discriminate.
  - discriminate.
  - discriminate.
  - exists [(u "hello.c", File (u "int main(void) {}"))]. reflexivity.
  - reflexivity.
  - intros self w0. by eexists _, _, _, _.
Defined.

(* ===================================================================== *)
(** * Properties: the valgrind report *)
(* ===================================================================== *)

Section Audit.

#[local] Set Warnings "-clear-no-such-hyp".

Variable parse : str -> option ET.element.
Variable d : str.

Lemma filter_absent (m : list N) (l : list (list N)) :
  m ∉ l -> filter (fun x => x = m) l = [].
Proof.
  induction l as [|x l IH]; intros Hnin; [reflexivity|].
  rewrite filter_cons_False by set_solver. apply IH. set_solver.
Qed.

Lemma once_in_nodup (m : list N) (l : list (list N)) :
  NoDup l -> m ∈ l -> length (filter (fun x => x = m) l) = 1%nat.
Proof.
  induction 1 as [|x l Hx Hl IH]; intros Hin.
  - by apply elem_of_nil in Hin.
  - destruct (decide (x = m)) as [->|Hne].
    + rewrite filter_cons_True by reflexivity.
      by rewrite filter_absent.
    + rewrite filter_cons_False by exact Hne.
      apply IH. apply elem_of_cons in Hin as [->|Hin]; [done|exact Hin].
Qed.

(** The loop logs the messages that are neither in [reported] already nor
    met earlier in the report, each once and in the order of the report. *)
Lemma report_errors_logs_new (errors : list ET.element) (msgs : list (list N)) :
  Forall2 (fun e m => message d e = inr m) errors msgs ->
  forall (reported : gset (list N)) (lg : list str),
  exists new,
    report_errors d errors reported lg
    = (None, reported ∪ list_to_set msgs, lg ++ new)
    /\ NoDup new
    /\ (forall m, m ∈ new <-> m ∈ msgs /\ m ∉ reported)
    /\ sublist new msgs.
Proof.
  induction 1 as [|e m errors msgs Hm _ IH]; intros reported lg.
  - exists []. cbn. rewrite app_nil_r.
    split; [f_equal; f_equal; set_solver|].
    split; [constructor|]. split; [set_solver|constructor].
  - cbn [report_errors]. rewrite Hm.
    destruct (decide (m ∈ reported)) as [Hin|Hnin].
    + rewrite bool_decide_eq_true_2 by exact Hin.
      destruct (IH reported lg) as (new & Heq & Hnd & Hmem & Hsub).
      exists new. rewrite Heq.
      split; [f_equal; f_equal; set_solver|].
      split; [exact Hnd|]. split.
      * intros m'. rewrite Hmem. set_solver.
      * by apply sublist_cons.
    + rewrite bool_decide_eq_false_2 by exact Hnin.
      destruct (IH ({[m]} ∪ reported) (lg ++ [m]))
        as (new & Heq & Hnd & Hmem & Hsub).
      exists (m :: new). rewrite Heq, <- app_assoc.
      split; [f_equal; f_equal; set_solver|].
      split.
      { constructor; [|exact Hnd]. rewrite Hmem. set_solver. }
      split.
      * intros m'. rewrite elem_of_cons, Hmem.
        destruct (decide (m' = m)) as [->|]; set_solver.
      * by apply sublist_skip.
Qed.

(** C5.  When every error entry of the report renders to a message, the
    audit appends to the log, after its heading, the rendered messages
    without repetition: a message is logged exactly once however many
    entries render to it, and nothing else is logged.  When the report has
    at least one entry the audit raises the [Error] "valgrind tests failed;
    rerun with --log for more information.", whose result is FAIL; with no
    entry it returns. *)
Theorem valgrind_logs_each_message_once (self : test) (w : world)
    (xml : ET.element) (msgs : list (list N)) :
  dir self = Some d ->
  read_report parse w d = inr xml ->
  Forall2 (fun e m => message d e = inr m) (ET.iterfind [u "error"] xml) msgs ->
  exists findings,
    _check_valgrind parse self w
    = (match msgs with
       | [] => None
       | _ :: _ =>
           Some (Error (Some (Text (u "valgrind tests failed; rerun with --log for more information.")))
                       None FAIL)
       end,
       set_log self (log self ++ [u "checking for valgrind errors... "] ++ findings))
    /\ NoDup findings
    /\ (forall m, m ∈ findings <-> m ∈ msgs)
    /\ (forall m, m ∈ msgs -> length (filter (fun x => x = m) findings) = 1%nat)
    /\ sublist findings msgs.
Proof.
  intros Hdir Hread Hmsgs.
  destruct (report_errors_logs_new _ _ Hmsgs ∅
              (log self ++ [u "checking for valgrind errors... "]))
    as (new & Heq & Hnd & Hmem & Hsub).
  exists new.
  assert (Hiff : forall m, m ∈ new <-> m ∈ msgs).
  { intros m. rewrite Hmem. set_solver. }
  split.
  - unfold _check_valgrind. rewrite Hdir, Hread, Heq, <- app_assoc.
    destruct msgs as [|m msgs'].
    + rewrite bool_decide_eq_true_2 by set_solver. reflexivity.
    + rewrite bool_decide_eq_false_2 by set_solver. reflexivity.
  - split; [exact Hnd|]. split; [exact Hiff|]. split; [|exact Hsub].
    intros m Hin. apply once_in_nodup; [exact Hnd|by apply Hiff].
Qed.

End Audit.

(** The [Error] of the audit, raised below [@check] and [@valgrind] by a
    body that itself returns, becomes the verdict of the check. *)
Lemma audit_error_is_the_verdict (parse : str -> option ET.element)
    (name : str) (f : body) (self self1 self2 : test) (w w1 : world)
    (entries : list (list N * node))
    (r : option rationale_value) (h : option str) (res : option bool) :
  fs w !! path_join (tempdir (cfg w)) (u "_") = Some (Dir entries) ->
  fs w !! path_join (tempdir (cfg w)) (_testMethodName self) = None ->
  (forall self0 w0, f self0 w0 = (None, self1, w1)) ->
  _check_valgrind parse self1 w1 = (Some (Error r h res), self2) ->
  let '(raised, self', w') :=
    wrapper name None (valgrind_wrapper true parse f) self w in
  raised = None /\ result self' = res /\ rationale self' = r
  /\ test_results (cfg w') !! name = Some res.
Proof.
  intros Hsrc Hdst Hf Haudit. unfold wrapper. cbn [truthy andb].
  unfold copytree. rewrite Hsrc, Hdst.
  unfold valgrind_wrapper. cbn [negb]. rewrite Hf, Haudit.
  cbn. by rewrite lookup_insert_eq.
Qed.

Lemma valgrind_logs_each_message_once_witness :
  exists findings,
    _check_valgrind (fun _ => Some leak_report) leak_test leak_world
    = (Some (Error (Some (Text (u "valgrind tests failed; rerun with --log for more information.")))
                   None FAIL),
       set_log leak_test (log leak_test ++ [u "checking for valgrind errors... "] ++ findings))
    /\ NoDup findings
    /\ (forall m, m ∈ findings <-> m ∈ [leak_message; leak_message])
    /\ (forall m, m ∈ [leak_message; leak_message] ->
        length (filter (fun x => x = m) findings) = 1%nat)
    /\ sublist findings [leak_message; leak_message].
Proof.
  apply (valgrind_logs_each_message_once (fun _ => Some leak_report)
           (u "/tmp/t/leaks") leak_test leak_world leak_report
           [leak_message; leak_message]).
  - reflexivity.
  - reflexivity.
  - repeat constructor.
Defined.

Example two_equal_leaks_one_finding :
  _check_valgrind (fun _ => Some leak_report) leak_test leak_world
  = (Some (Error (Some (Text (u "valgrind tests failed; rerun with --log for more information.")))
                 None FAIL),
     set_log leak_test [u "running valgrind ./a.out...";
                        u "checking for valgrind errors... "; leak_message]).
Proof. vm_compute. reflexivity. Qed.

(* ===================================================================== *)
(** * Properties: the environment of spawned processes *)
(* ===================================================================== *)

Section Environment.

Variable spawnu : spawn_call -> Spawn.

(** [spawn] raises only under [@valgrind] on an instance without [dir]. *)
Lemma spawn_returns (self : test) (cmd : str)
    (env : option (gmap (list N) (list N))) (w : world) :
  _valgrind self = false \/ is_Some (dir self) ->
  exists c self' call,
    spawn spawnu self cmd env w
    = (inr c, self',
       {| cfg := cfg w; fs := fs w; cwd := cwd w;
          environ := default ∅ env ∪ environ w;
          spawned := spawned w ++ [call] |})
    /\ call_env call = None
    /\ call_environ call = default ∅ env ∪ environ w.
Proof.
  intros Hok. unfold spawn, environ_update.
  destruct (_valgrind self) eqn:Hv.
  - destruct Hok as [Hf|[d Hd]]; [discriminate|].
    cbn [set_log dir]. rewrite Hd. by eexists _, _, _.
  - by eexists _, _, _.
Qed.

Lemma spawn_environ (self : test) (cmd : str)
    (env : option (gmap (list N) (list N))) (w : world) :
  environ (spawn spawnu self cmd env w).2 = environ w
  \/ environ (spawn spawnu self cmd env w).2 = default ∅ env ∪ environ w.
Proof.
  unfold spawn, environ_update.
  destruct (_valgrind self); [|by right].
  cbn [set_log dir]. destruct (dir self); [by right|by left].
Qed.

(** Between the spawns of a run the wrapper of a check leaves an entry
    of the process environment alone, as long as the body does. *)
Lemma wrapper_keeps_environ (name : str) (dep : option str) (f : body)
    (self : test) (w : world) (k v : list N) :
  (forall self0 w0, environ w0 !! k = Some v ->
                    environ (f self0 w0).2 !! k = Some v) ->
  environ w !! k = Some v ->
  environ (wrapper name dep f self w).2 !! k = Some v.
Proof.
  intros Hf Hw. unfold wrapper.
  destruct (truthy dep && _); [exact Hw|].
  destruct (copytree _ _ _) as [fs'|]; [|exact Hw].
  match goal with
  | |- context [f ?s0 ?w0] =>
      specialize (Hf s0 w0 Hw); destruct (f s0 w0) as [[[[]|] s1] w1]
  end; exact Hf.
Qed.

(** C10.  [spawn(cmd, env)] writes the entries of [env] into the process
    environment, over what was there; the [env] argument it hands to
    [pexpect.spawnu] is [None], so that the child's environment is the
    process environment just written.  An entry so written is still in the
    process environment after any later [spawn], by any instance, whose own
    [env] has no entry for the same variable, and after any later check
    whose body leaves it alone. *)
Theorem spawn_writes_the_process_environment (self : test) (cmd : str)
    (env : gmap (list N) (list N)) (w : world) :
  _valgrind self = false \/ is_Some (dir self) ->
  exists c self' w' call,
    spawn spawnu self cmd (Some env) w = (inr c, self', w')
    /\ environ w' = env ∪ environ w
    /\ (forall k v, env !! k = Some v -> environ w' !! k = Some v)
    /\ spawned w' = spawned w ++ [call]
    /\ call_env call = None
    /\ child_environment call = environ w'
    /\ (forall k v, env !! k = Some v ->
        forall (self2 : test) (cmd2 : str)
               (env2 : option (gmap (list N) (list N))) (w2 : world),
          environ w2 !! k = Some v ->
          default ∅ env2 !! k = None ->
          environ (spawn spawnu self2 cmd2 env2 w2).2 !! k = Some v)
    /\ (forall k v, env !! k = Some v ->
        forall (name : str) (dep : option str) (f : body)
               (self2 : test) (w2 : world),
          (forall self0 w0, environ w0 !! k = Some v ->
                            environ (f self0 w0).2 !! k = Some v) ->
          environ w2 !! k = Some v ->
          environ (wrapper name dep f self2 w2).2 !! k = Some v).
Proof.
  intros Hok.
  destruct (spawn_returns self cmd (Some env) w Hok)
    as (c & self' & call & Heq & Hnone & Hcall).
  eexists c, self', _, call. split; [exact Heq|].
  cbn [environ spawned default].
  split; [reflexivity|].
  split. { intros k v Hk. by apply lookup_union_Some_l. }
  split; [reflexivity|].
  split; [exact Hnone|].
  split. { unfold child_environment. by rewrite Hnone, Hcall. }
  split.
  - intros k v Hk self2 cmd2 env2 w2 Hw2 Henv2.
    destruct (spawn_environ self2 cmd2 env2 w2) as [-> | ->]; [exact Hw2|].
    rewrite lookup_union_r by exact Henv2. exact Hw2.
  - intros k v _ name dep f self2 w2 Hf Hw2. by apply wrapper_keeps_environ.
Qed.

End Environment.

Lemma spawn_writes_the_process_environment_witness :
  exists w' call,
    (spawn (fun _ => says (u "hi" ++ [CR; LF])) (new_test (u "greets"))
           (u "./hello") (Some {[ u "LANG" := u "C" ]}) fresh_world).2 = w'
    /\ environ w' !! u "LANG" = Some (u "C")
    /\ spawned w' = [call]
    /\ call_env call = None
    /\ child_environment call !! u "LANG" = Some (u "C").
Proof.
  destruct (spawn_writes_the_process_environment
              (fun _ => says (u "hi" ++ [CR; LF])) (new_test (u "greets"))
              (u "./hello") {[ u "LANG" := u "C" ]} fresh_world
              (or_introl eq_refl))
    as (c & self' & w' & call & Heq & Henv & Hin & Hsp & Hnone & Hchild & _).
  exists w', call. rewrite Heq.
  split; [reflexivity|].
  split; [apply Hin; reflexivity|].
  split; [exact Hsp|].
  split; [exact Hnone|].
  rewrite Hchild. apply Hin. reflexivity.
Defined.

Example spawn_passes_no_env :
  (spawn (fun _ => says (u "hi" ++ [CR; LF])) (new_test (u "greets")) (u "./hello")
         (Some {[ u "LANG" := u "C" ]}) fresh_world).2
  = {| cfg := cfg fresh_world; fs := fs fresh_world; cwd := cwd fresh_world;
       environ := {[ u "LANG" := u "C" ]};
       spawned := [ {| call_cmd := u "bash -c ./hello"; call_env := None;
                       call_environ := {[ u "LANG" := u "C" ]} |} ] |}.
Proof.
  cbn. unfold environ_update. by rewrite (right_id_L ∅ (∪)).
Qed.

(* ===================================================================== *)
(** * Properties: the failures of [stdout] *)
(* ===================================================================== *)

Section Failures.

Variable isprintable : N -> bool.
Variables expect expect_exact : pyvalue -> Z -> Spawn -> expect_result * Spawn.
Variable wait : Z -> Child -> option exn * Child.
Variables (self : Child) (lg : list str).
Variables (str_output : option str) (timeout : Z).

(** C3.  Whatever the matchers of the session are, [stdout] tells three
    failures apart.  Let [matcher] be the one it calls ([expect_exact] for
    a file, [expect] otherwise), [sought] what it passes to it and [shown]
    the text it shows for the expectation (the caller's [str_output], or
    the expectation itself, or "EOF").  If the matcher raises [TIMEOUT],
    [stdout] raises the [Error] "timed out while waiting for " followed by
    the rendering of [shown].  If it raises [EOF], [stdout] raises an
    [Error] carrying the [Mismatch] of [shown] against what the child
    holds: [before] and [buffer], and [after] when it is a text, with
    line ends translated back.  If end of output was expected and the
    matcher returns with a non-empty [before], [stdout] raises an [Error]
    carrying the [Mismatch] of the sentinel [EOF] against that output. *)
Theorem stdout_failures_are_told_apart (output : expectation) (c : Spawn) :
  output <> NoOutput ->
  let matcher := match output with Readable _ => expect_exact | _ => expect end in
  let sought :=
    match output with
    | Readable s | ExpectText s => Str (to_crlf s)
    | _ => EOF
    end in
  let shown :=
    match output with
    | Readable s | ExpectText s => default s str_output
    | _ => u "EOF"
    end in
  let run := stdout isprintable expect expect_exact wait self lg output
                    str_output timeout in
  (matcher sought timeout (child self) = (RaisedTIMEOUT, c) ->
   run = (inl (Error (Some (Text (u "timed out while waiting for "
                                    ++ Mismatch.raw isprintable (Str shown))))
                     None FAIL),
          set_child self c, lg ++ [checking_for shown]))
  /\ (forall b : str,
      matcher sought timeout (child self) = (RaisedEOF, c) ->
      before c = Some b ->
      after c = AfterEOF \/ (exists a, after c = AfterText a) ->
      run = (inl (Error (Some (Mis (Mismatch.Mismatch (Str shown)
                 (Str (from_crlf (b ++ buffer c
                         ++ match after c with AfterText a => a | _ => [] end))))))
                        None FAIL),
             set_child self c, lg ++ [checking_for shown]))
  /\ (forall b : str,
      output = ExpectEOF ->
      matcher sought timeout (child self) = (Matched, c) ->
      before c = Some b -> b <> [] ->
      run = (inl (Error (Some (Mis (Mismatch.Mismatch EOF (Str (from_crlf b)))))
                        None FAIL),
             set_child self c, lg ++ [checking_for shown])).
Proof.
  intros Hout matcher sought shown run.
  unfold checking_for.
  split; [|split].
  - intros Hm. subst run matcher sought shown.
    destruct output; try contradiction; unfold stdout; rewrite Hm; reflexivity.
  - intros b Hm Hb Ha. subst run matcher sought shown.
    destruct output; try contradiction; unfold stdout; rewrite Hm, Hb;
      destruct Ha as [-> | [a ->]]; rewrite ?app_nil_r, <- ?app_assoc;
      reflexivity.
  - intros b -> Hm Hb Hne. subst run matcher sought shown.
    unfold stdout. rewrite Hm, Hb. destruct b; [contradiction|reflexivity].
Qed.

End Failures.

Lemma stdout_failures_are_told_apart_witness :
  stdout (fun _ => true) Pexpect.expect Pexpect.expect_exact no_wait
         (session silent) [] (ExpectText (u "hello, world")) None 3
  = (inl (Error (Some (Text (u "timed out while waiting for "
                               ++ [dquote] ++ u "hello, world" ++ [dquote])))
                None FAIL),
     session {| before := Some []; after := AfterTIMEOUT; buffer := [];
                pending := []; closes := false |},
     [checking_for (u "hello, world")])
  /\ stdout (fun _ => true) Pexpect.expect Pexpect.expect_exact no_wait
            (session (says (u "bye" ++ [CR; LF]))) [] (ExpectText (u "hello")) None 3
     = (inl (Error (Some (Mis (Mismatch.Mismatch (Str (u "hello"))
                                                 (Str (u "bye" ++ [LF])))))
                   None FAIL),
        session {| before := Some (u "bye" ++ [CR; LF]); after := AfterEOF;
                   buffer := []; pending := []; closes := true |},
        [checking_for (u "hello")])
  /\ stdout (fun _ => true) Pexpect.expect Pexpect.expect_exact no_wait
            (session (says (u "more" ++ [CR; LF]))) [] ExpectEOF None 3
     = (inl (Error (Some (Mis (Mismatch.Mismatch EOF (Str (u "more" ++ [LF])))))
                   None FAIL),
        session {| before := Some (u "more" ++ [CR; LF]); after := AfterEOF;
                   buffer := []; pending := []; closes := true |},
        [checking_for (u "EOF")]).
Proof.
  split; [|split].
  - apply (proj1 (stdout_failures_are_told_apart (fun _ => true)
                    Pexpect.expect Pexpect.expect_exact no_wait (session silent) []
                    None 3 (ExpectText (u "hello, world"))
                    {| before := Some []; after := AfterTIMEOUT; buffer := [];
                       pending := []; closes := false |} ltac:(discriminate))).
    reflexivity.
  - apply (proj1 (proj2 (stdout_failures_are_told_apart (fun _ => true)
                    Pexpect.expect Pexpect.expect_exact no_wait
                    (session (says (u "bye" ++ [CR; LF]))) []
                    None 3 (ExpectText (u "hello"))
                    {| before := Some (u "bye" ++ [CR; LF]); after := AfterEOF;
                       buffer := []; pending := []; closes := true |}
                    ltac:(discriminate))) (u "bye" ++ [CR; LF])).
    + reflexivity.
    + reflexivity.
    + left. reflexivity.
  - apply (proj2 (proj2 (stdout_failures_are_told_apart (fun _ => true)
                    Pexpect.expect Pexpect.expect_exact no_wait
                    (session (says (u "more" ++ [CR; LF]))) []
                    None 3 ExpectEOF
                    {| before := Some (u "more" ++ [CR; LF]); after := AfterEOF;
                       buffer := []; pending := []; closes := true |}
                    ltac:(discriminate))) (u "more" ++ [CR; LF])).
    + reflexivity.
    + reflexivity.
    + reflexivity.
    + discriminate.
Defined.

(* ===================================================================== *)
(** * Properties: literal and pattern expectations *)
(* ===================================================================== *)

Section Matching.

Lemma startswith_prefix (s p : str) :
  startswith s p = true <-> exists r, s = p ++ r.
Proof.
  revert s. induction p as [|a p IH]; intros s.
  - destruct s; cbn; split; eauto.
  - destruct s as [|b s]; cbn.
    + split; [discriminate|]. intros [r Hr]. discriminate.
    + rewrite andb_true_iff, N.eqb_eq, IH. split.
      * intros [-> [r ->]]. eauto.
      * intros [r Hr]. injection Hr as -> ->. eauto.
Qed.

Lemma search_exact_occurs (needle s : str) :
  is_Some (Pexpect.search_exact needle s) <-> occurs needle s.
Proof.
  induction s as [|c s IH].
  - cbn [Pexpect.search_exact]. destruct (startswith [] needle) eqn:Hs.
    + split; [|intros _; by eexists]. intros _.
      apply startswith_prefix in Hs as [r Hr]. by exists [], r.
    + split; [intros [x Hx]; discriminate|].
      intros (l1 & l2 & Heq). exfalso.
      symmetry in Heq. apply app_eq_nil in Heq as [-> Heq].
      apply app_eq_nil in Heq as [-> ->]. discriminate Hs.
  - cbn [Pexpect.search_exact]. destruct (startswith (c :: s) needle) eqn:Hs.
    + split; [|intros _; by eexists]. intros _.
      apply startswith_prefix in Hs as [r Hr]. by exists [], r.
    + rewrite fmap_is_Some, IH. split.
      * intros (l1 & l2 & ->). by exists (c :: l1), l2.
      * intros (l1 & l2 & Heq). destruct l1 as [|x l1].
        { exfalso. cbn in Heq.
          assert (startswith (c :: s) needle = true) as Ht
            by (apply startswith_prefix; eauto).
          congruence. }
        { injection Heq as -> ->. by exists l1, l2. }
Qed.

Lemma occurs_app_r (needle s t : str) : occurs needle s -> occurs needle (s ++ t).
Proof.
  intros (l1 & l2 & ->). exists l1, (l2 ++ t). by rewrite <- !app_assoc.
Qed.

Lemma expect_loop_matched (searcher : str -> option Pexpect.found)
    (pending : list str) (closes : bool) (buf : str) :
  (Pexpect.expect_loop searcher false buf pending closes).1 = Matched
  <-> exists k, (k <= length pending)%nat
                /\ is_Some (searcher (buf ++ concat (take k pending))).
Proof.
  revert buf. induction pending as [|p ps IH]; intros buf;
    cbn [Pexpect.expect_loop]; destruct (searcher buf) as [[[b m] rest]|] eqn:Hs.
  - split; [|done]. intros _. exists 0%nat. cbn. rewrite app_nil_r, Hs. eauto.
  - split.
    + destruct closes; discriminate.
    + intros (k & Hk & [x Hx]). exfalso.
      rewrite take_nil in Hx. cbn in Hx. rewrite app_nil_r in Hx. congruence.
  - split; [|done]. intros _. exists 0%nat. cbn. rewrite app_nil_r, Hs.
    split; [lia|eauto].
  - rewrite IH. split.
    + intros (k & Hk & Hsome). exists (S k). cbn. split; [lia|].
      by rewrite app_assoc.
    + intros (k & Hk & Hsome). destruct k as [|k].
      * exfalso. cbn in Hsome. rewrite app_nil_r, Hs in Hsome.
        by destruct Hsome.
      * exists k. cbn in Hk, Hsome. split; [lia|]. by rewrite <- app_assoc.
Qed.

Variable isprintable : N -> bool.
Variable wait : Z -> Child -> option exn * Child.
Variables (self : Child) (lg : list str).
Variables (str_output : option str) (timeout : Z).

(** [stdout] returns the child exactly when the matcher it calls for a text
    returns. *)
Lemma stdout_returns_iff_matched (output : expectation) (s : str) :
  output = Readable s \/ output = ExpectText s ->
  (stdout isprintable Pexpect.expect Pexpect.expect_exact wait self lg output
          str_output timeout).1.1 = inr Self
  <-> ((match output with
        | Readable _ => Pexpect.expect_exact
        | _ => Pexpect.expect
        end) (Str (to_crlf s)) timeout (child self)).1 = Matched.
Proof.
  intros [-> | ->]; unfold stdout;
    match goal with
    | |- context [?f (Str (to_crlf s)) timeout (child self)] =>
        destruct (f (Str (to_crlf s)) timeout (child self)) as [[] c]
    end; cbn [fst snd]; try (split; [discriminate|discriminate]);
    try (split; reflexivity);
    destruct (before c); try destruct (after c);
    split; discriminate.
Qed.

(** C2.  With the session's matchers, a file given as expectation is
    satisfied exactly when its content (line ends translated) occurs,
    character for character, in what the session offers; a text is
    satisfied exactly when the pattern it compiles to is found in what has
    been read at some point.  The two can differ on the same text: ["a.c"]
    against the output ["abc"] fails as a file and succeeds as a pattern,
    and ["a+b"] against the output ["a+b"] succeeds as a file and fails as
    a pattern. *)
Theorem literal_and_pattern_expectations :
  (forall content : str,
     (stdout isprintable Pexpect.expect Pexpect.expect_exact wait self lg
             (Readable content) str_output timeout).1.1 = inr Self
     <-> occurs (to_crlf content) (offered (child self)))
  /\ (forall (s : str) (r : list (Pexpect.atom * Pexpect.quantifier)),
        Pexpect.compile (to_crlf s) = Pexpect.Regex r ->
        (stdout isprintable Pexpect.expect Pexpect.expect_exact wait self lg
                (ExpectText s) str_output timeout).1.1 = inr Self
        <-> exists k, (k <= length (pending (child self)))%nat
              /\ is_Some (Pexpect.search r
                            (buffer (child self)
                               ++ concat (take k (pending (child self))))))
  /\ (46 ∈ u "a.c"
      /\ (stdout isprintable Pexpect.expect Pexpect.expect_exact wait
                 (session (says (u "abc"))) lg (Readable (u "a.c"))
                 str_output timeout).1.1
         = inl (Error (Some (Mis (Mismatch.Mismatch
                                    (Str (default (u "a.c") str_output))
                                    (Str (u "abc")))))
                      None FAIL)
      /\ (stdout isprintable Pexpect.expect Pexpect.expect_exact wait
                 (session (says (u "abc"))) lg (ExpectText (u "a.c"))
                 str_output timeout).1.1 = inr Self)
  /\ (43 ∈ u "a+b"
      /\ (stdout isprintable Pexpect.expect Pexpect.expect_exact wait
                 (session (says (u "a+b"))) lg (Readable (u "a+b"))
                 str_output timeout).1.1 = inr Self
      /\ (stdout isprintable Pexpect.expect Pexpect.expect_exact wait
                 (session (says (u "a+b"))) lg (ExpectText (u "a+b"))
                 str_output timeout).1.1
         = inl (Error (Some (Mis (Mismatch.Mismatch
                                    (Str (default (u "a+b") str_output))
                                    (Str (u "a+b")))))
                      None FAIL)).
Proof.
  split; [|split; [|split]].
  - intros content.
    rewrite (stdout_returns_iff_matched (Readable content) content) by auto.
    cbn [Pexpect.expect_exact]. rewrite expect_loop_matched. unfold offered.
    split.
    + intros (k & Hk & Hsome). apply search_exact_occurs in Hsome.
      rewrite <- (take_drop k (pending (child self))), concat_app, app_assoc.
      by apply occurs_app_r.
    + intros Hocc. exists (length (pending (child self))).
      split; [lia|]. rewrite firstn_all. by apply search_exact_occurs.
  - intros s r Hr.
    rewrite (stdout_returns_iff_matched (ExpectText s) s) by auto.
    cbn [Pexpect.expect]. rewrite Hr. apply expect_loop_matched.
  - split; [vm_compute; set_solver|]. split; reflexivity.
  - split; [vm_compute; set_solver|]. split; reflexivity.
Qed.

End Matching.

Lemma literal_and_pattern_expectations_witness :
  (stdout (fun _ => true) Pexpect.expect Pexpect.expect_exact no_wait
          (session (says (u "hello, world" ++ [CR; LF]))) []
          (ExpectText (u "hel+o.* world" ++ [LF])) None 3).1.1 = inr Self
  <-> exists k, (k <= 1)%nat
        /\ is_Some (Pexpect.search
                      [(Pexpect.Char 104, Pexpect.Once); (Pexpect.Char 101, Pexpect.Once);
                       (Pexpect.Char 108, Pexpect.Plus); (Pexpect.Char 111, Pexpect.Once);
                       (Pexpect.AnyChar, Pexpect.Star); (Pexpect.Char 32, Pexpect.Once);
                       (Pexpect.Char 119, Pexpect.Once); (Pexpect.Char 111, Pexpect.Once);
                       (Pexpect.Char 114, Pexpect.Once); (Pexpect.Char 108, Pexpect.Once);
                       (Pexpect.Char 100, Pexpect.Once); (Pexpect.Char 13, Pexpect.Once);
                       (Pexpect.Char 10, Pexpect.Once)]
                      ([] ++ concat (take k [u "hello, world" ++ [CR; LF]]))).
Proof.
  apply (proj1 (proj2 (literal_and_pattern_expectations (fun _ => true) no_wait
                         (session (says (u "hello, world" ++ [CR; LF]))) []
                         None 3))
               (u "hel+o.* world" ++ [LF])).
  reflexivity.
Defined.

Example pattern_found_in_output :
  (stdout (fun _ => true) Pexpect.expect Pexpect.expect_exact no_wait
          (session (says (u "hello, world" ++ [CR; LF]))) []
          (ExpectText (u "hel+o.* world" ++ [LF])) None 3).1.1 = inr Self.
Proof. reflexivity. Qed.

(** A character is absent from a literal text. *)
Ltac absent :=
  vm_compute;
  let H := fresh in
  intros H;
  repeat (apply elem_of_cons in H as [H|H]; [discriminate H|]);
  by apply elem_of_nil in H.

(* ===================================================================== *)
(** * Further properties: text *)
(* ===================================================================== *)

Section LineEnds.

Lemma startswith_nil (s : str) : startswith s [] = true.
Proof. by destruct s. Qed.

Lemma to_crlf_cons (c : N) (s : str) :
  to_crlf (c :: s) = (if c =? LF then [CR; LF] else [c]) ++ to_crlf s.
Proof.
  unfold to_crlf, replace. cbn [replace_from startswith length].
  rewrite startswith_nil, andb_true_r, N.eqb_sym.
  destruct (c =? LF); reflexivity.
Qed.

Lemma to_crlf_never_starts_with_lf (s : str) :
  startswith (to_crlf s) [LF] = false.
Proof.
  destruct s as [|c s]; [reflexivity|].
  rewrite to_crlf_cons. destruct (N.eqb_spec c LF) as [->|Hne].
  - reflexivity.
  - cbn [app startswith]. apply andb_false_intro1. apply N.eqb_neq.
    congruence.
Qed.

Lemma from_crlf_pair (t : str) : from_crlf (CR :: LF :: t) = LF :: from_crlf t.
Proof.
  unfold from_crlf, replace. cbn [replace_from startswith length].
  rewrite startswith_nil. reflexivity.
Qed.

Lemma from_crlf_other (c : N) (t : str) :
  startswith (c :: t) [CR; LF] = false -> from_crlf (c :: t) = c :: from_crlf t.
Proof.
  unfold from_crlf, replace. cbn [replace_from]. by intros ->.
Qed.

(** X1.  The translation of line ends that [stdout] applies to an
    expectation is undone by the one it applies to captured output:
    replacing every line feed by carriage return and line feed, and then
    every such pair by a line feed, gives the text back, whatever it
    holds. *)
Theorem from_crlf_to_crlf (s : str) : from_crlf (to_crlf s) = s.
Proof.
  induction s as [|c s IH]; [reflexivity|].
  rewrite to_crlf_cons. destruct (N.eqb_spec c LF) as [->|Hne].
  - cbn [app]. by rewrite from_crlf_pair, IH.
  - cbn [app]. rewrite from_crlf_other, IH; [reflexivity|].
    cbn [startswith]. rewrite to_crlf_never_starts_with_lf.
    apply andb_false_r.
Qed.

End LineEnds.

Section OneLine.

Variable isprintable : N -> bool.

Lemma visible_by_check (l : str) :
  forallb (fun c => (32 <=? c) && negb (c =? 127)) l = true -> Forall visible l.
Proof.
  induction l as [|c l IH]; cbn [forallb]; intros H; [constructor|].
  apply andb_prop in H as [Hc Hl]. apply andb_prop in Hc as [Hlo Hne].
  apply N.leb_le in Hlo. apply negb_true_iff, N.eqb_neq in Hne.
  apply Forall_cons. split; [by split|by apply IH].
Qed.

Lemma hexdigit_visible (d : N) : d < 16 -> visible (hexdigit d).
Proof.
  unfold visible, hexdigit. intros Hd. destruct (N.ltb_spec d 10); lia.
Qed.

Lemma hex_visible (w : nat) (n : N) : Forall visible (hex w n).
Proof.
  revert n. induction w as [|w IH]; intros n; cbn [hex]; [constructor|].
  apply Forall_app. split; [apply IH|].
  constructor; [|constructor]. apply hexdigit_visible.
  apply N.mod_upper_bound. lia.
Qed.

Lemma hex_length (w : nat) (n : N) : length (hex w n) = w.
Proof.
  revert n. induction w as [|w IH]; intros n; cbn [hex]; [reflexivity|].
  rewrite length_app, IH. cbn. lia.
Qed.

Lemma repr_quote_cases (s : str) : repr_quote s = dquote \/ repr_quote s = squote.
Proof. unfold repr_quote. destruct (_ && _); auto. Qed.

Lemma repr_char_visible (q c : N) :
  q = dquote \/ q = squote -> Forall visible (repr_char isprintable q c).
Proof.
  intros Hq. unfold repr_char, TAB, LF, CR, backslash.
  assert (Hlit : forall a b, visible a -> visible b -> forall w n,
                   Forall visible ([a; b] ++ hex w n)).
  { intros a b Ha Hb w n. apply Forall_app. split; [|apply hex_visible].
    apply Forall_cons; split; [exact Ha|].
    apply Forall_cons; split; [exact Hb|apply Forall_nil_2]. }
  assert (Hx : forall w n, Forall visible (u "\x" ++ hex w n))
    by (intros; apply (Hlit 92 120); unfold visible; lia).
  assert (Hu : forall w n, Forall visible (u "\u" ++ hex w n))
    by (intros; apply (Hlit 92 117); unfold visible; lia).
  assert (HU : forall w n, Forall visible (u "\U" ++ hex w n))
    by (intros; apply (Hlit 92 85); unfold visible; lia).
  assert (Htwo : forall a b, visible a -> visible b -> Forall visible [a; b]).
  { intros a b Ha Hb. apply Forall_cons; split; [exact Ha|].
    apply Forall_cons; split; [exact Hb|apply Forall_nil_2]. }
  destruct (N.eqb_spec c q) as [->|Hcq]; cbn [orb].
  { apply Htwo; unfold visible; destruct Hq as [-> | ->];
      unfold dquote, squote; lia. }
  destruct (N.eqb_spec c 92) as [->|Hb]; cbn [orb].
  { apply Htwo; unfold visible; lia. }
  destruct (N.eqb_spec c 9); [apply (Htwo 92 116); unfold visible; lia|].
  destruct (N.eqb_spec c 10); [apply (Htwo 92 110); unfold visible; lia|].
  destruct (N.eqb_spec c 13); [apply (Htwo 92 114); unfold visible; lia|].
  destruct (N.ltb_spec c 32); cbn [orb]; [apply Hx|].
  destruct (N.eqb_spec c 127); cbn [orb]; [apply Hx|].
  destruct (N.ltb_spec c 127).
  { constructor; [unfold visible; lia|constructor]. }
  destruct (isprintable c).
  { constructor; [unfold visible; lia|constructor]. }
  destruct (c <=? 255); [apply Hx|].
  destruct (c <=? 65535); [apply Hu|apply HU].
Qed.

Lemma repr_body_visible (s : str) : Forall visible (repr_body isprintable s).
Proof.
  unfold repr_body. generalize (repr_quote_cases s).
  generalize (repr_quote s) as q. intros q Hq.
  induction s as [|c s IH]; cbn [flat_map]; [constructor|].
  apply Forall_app. split; [by apply repr_char_visible|exact IH].
Qed.

Lemma raw_text_visible (s : str) : Forall visible (Mismatch.raw_text isprintable s).
Proof.
  unfold Mismatch.raw_text. rewrite strip_ends_repr.
  pose proof (repr_body_visible s) as Hb.
  assert (Hq : Forall visible [dquote]) by (by apply visible_by_check).
  apply Forall_app. split; [exact Hq|].
  apply Forall_app. split; [|exact Hq].
  destruct (15 <? _)%nat; [|exact Hb].
  apply Forall_app. split; [by apply Forall_take|].
  by apply visible_by_check.
Qed.

Lemma raw_text_length (s : str) : (length (Mismatch.raw_text isprintable s) <= 20)%nat.
Proof.
  unfold Mismatch.raw_text. rewrite !length_app. cbn [length].
  destruct (15 <? length _)%nat eqn:Hlen.
  - rewrite length_app, length_take.
    change (length (u "...")) with 3%nat. lia.
  - apply Nat.ltb_ge in Hlen. lia.
Qed.

(** X2.  Whatever it is given (a text, a list of lines, the end-of-output
    sentinel), [Mismatch.raw] returns at most 20 characters: 15 of the
    escaped text, the three dots and the two quotation marks. *)
Theorem raw_is_short (v : pyvalue) :
  (length (Mismatch.raw isprintable v) <= 20)%nat.
Proof.
  destruct v as [s|l|]; cbn [Mismatch.raw];
    [apply raw_text_length|apply raw_text_length|cbn; lia].
Qed.

(** X3.  The rendering holds no control character: line feeds, carriage
    returns, tabs and the other characters below U+0020, and DEL, only
    occur escaped, so that a rendered value stays on one line of the
    log. *)
Theorem raw_holds_no_control_character (v : pyvalue) :
  Forall visible (Mismatch.raw isprintable v).
Proof.
  destruct v as [s|l|]; cbn [Mismatch.raw];
    [apply raw_text_visible|apply raw_text_visible|].
  by apply visible_by_check.
Qed.

(** X4.  The text of a [Mismatch], "expected ..., not ...", is one line
    of at most 55 characters, however long the expected and the actual
    output are. *)
Theorem mismatch_text_is_one_short_line (m : Mismatch.t) :
  (length (Mismatch.to_str isprintable m) <= 55)%nat
  /\ Forall visible (Mismatch.to_str isprintable m).
Proof.
  unfold Mismatch.to_str. split.
  - rewrite !length_app.
    assert (Hraw : forall v, (length (Mismatch.raw isprintable v) <= 20)%nat).
    { intros [s|l|]; cbn [Mismatch.raw]; try apply raw_text_length. cbn. lia. }
    pose proof (Hraw (Mismatch.expected m)).
    pose proof (Hraw (Mismatch.actual m)).
    change (length (u "expected ")) with 9%nat.
    change (length (u ", not ")) with 6%nat. lia.
  - assert (Hraw : forall v, Forall visible (Mismatch.raw isprintable v)).
    { intros [s|l|]; cbn [Mismatch.raw]; try apply raw_text_visible.
      by apply visible_by_check. }
    repeat (apply Forall_app; split); try apply Hraw;
      by apply visible_by_check.
Qed.

End OneLine.

(* ===================================================================== *)
(** * Further properties: the wrapper of a check *)
(* ===================================================================== *)

Section Wrapper.

Variables (name : str) (dep : option str) (f : body).
Variables (self : test) (w : world).

(** X5.  Whenever the wrapper of a check returns, the verdict it has
    written under the check's name in [config.test_results] is the verdict
    of the instance; and what it lets through when it raises is never an
    [Error]: a check-local diagnostic does not leave its check. *)
Theorem wrapper_records_its_verdict :
  match wrapper name dep f self w with
  | (None, self', w') => test_results (cfg w') !! name = Some (result self')
  | (Some e, _, _) => forall r h res, e <> Error r h res
  end.
Proof.
  unfold wrapper. destruct (truthy dep && _).
  - cbn. apply lookup_insert_eq.
  - destruct (copytree _ _ _) as [fs'|]; [|discriminate].
    match goal with
    | |- context [f ?s0 ?w0] => destruct (f s0 w0) as [[[[]|] s1] w1]
    end; cbn; try discriminate; apply lookup_insert_eq.
Qed.

(** X6.  The wrapper itself writes in one place of the directory tree
    only, the check's own directory: when the body changes nothing
    outside the directory it is given ([self.dir]), every other directory,
    the dependency's among them, is after the check what it was before. *)
Theorem wrapper_changes_only_its_directory :
  (forall self0 w0 p, dir self0 <> Some p -> fs (f self0 w0).2 !! p = fs w0 !! p) ->
  forall p, p <> path_join (tempdir (cfg w)) (_testMethodName self) ->
    fs (wrapper name dep f self w).2 !! p = fs w !! p.
Proof.
  intros Hf p Hp. unfold wrapper. destruct (truthy dep && _); [reflexivity|].
  unfold copytree.
  destruct (fs w !! path_join (tempdir (cfg w)) _) as [[content|entries]|];
    try reflexivity.
  destruct (fs w !! path_join (tempdir (cfg w)) (_testMethodName self));
    [reflexivity|].
  match goal with
  | |- context [f ?s0 ?w0] =>
      pose proof (Hf s0 w0 p) as Hfs; destruct (f s0 w0) as [[[[]|] s1] w1]
  end; cbn in Hfs |- *; (rewrite Hfs; [by apply lookup_insert_ne|congruence]).
Qed.

End Wrapper.

Lemma wrapper_changes_only_its_directory_witness :
  fs (wrapper (u "exists") None passing (new_test (u "exists")) fresh_world).2
    !! u "/tmp/t/_"
  = fs fresh_world !! u "/tmp/t/_".
Proof.
  apply (wrapper_changes_only_its_directory (u "exists") None passing
           (new_test (u "exists")) fresh_world).
  - reflexivity.
  - vm_compute. discriminate.
Defined.

(* ===================================================================== *)
(** * Further properties: the run *)
(* ===================================================================== *)

Section Run.




End Run.

Section DeclaredTwice.

Variables (name : str) (f : body) (w : world).
Variable entries : list (list N * node).

Hypothesis pristine :
  fs w !! path_join (tempdir (cfg w)) (u "_") = Some (Dir entries).
Hypothesis fresh : fs w !! path_join (tempdir (cfg w)) name = None.

(** The body returns or raises an [Error], keeps the temporary directory
    of [config] and removes no directory. *)
Hypothesis well_behaved :
  forall self0 w0, exists o self1 w1,
    f self0 w0 = (o, self1, w1)
    /\ (o = None \/ exists r h res, o = Some (Error r h res))
    /\ tempdir (cfg w1) = tempdir (cfg w0)
    /\ (forall p, is_Some (fs w0 !! p) -> is_Some (fs w1 !! p)).

(** X10.  A name that is declared twice is run twice, and the second run
    cannot make its directory, which the first run has made: [copytree]
    raises, the exception goes to [addError], and the run ends there with
    two entries, the verdict of the first run and FAIL. *)
Theorem second_run_of_a_name_ends_the_run :
  exists suite e1 e2 w',
    make_suite {[ name := Method None f ]} [name; name] = Some suite
    /\ run_suite suite [] w = (Exited, [e1; e2], w')
    /\ reported e1
    /\ status e2 = FAIL
    /\ entry_rationale e2 = inl (OtherException "OSError").
Proof.
  set (dst := path_join (tempdir (cfg w)) name).
  set (self0 :=
    {| _testMethodName := name; result := FAIL; rationale := None;
       helpers := None; log := []; children := []; dir := Some dst;
       _valgrind := false |}).
  set (w0 :=
    {| cfg := cfg w; fs := <[dst := Dir entries]> (fs w); cwd := dst;
       environ := environ w; spawned := spawned w |}).
  destruct (well_behaved self0 w0) as (o & self1 & w1 & Hf & Ho & Htmp & Hfs).
  assert (Hdst : is_Some (fs w1 !! dst)).
  { apply Hfs. cbn. rewrite lookup_insert_eq. by eexists. }
  assert (Hfirst : exists self' v,
    wrapper name None f (new_test name) w
    = (None, self', set_test_results (insert name v) w1)).
  { unfold wrapper. cbn [truthy andb].
    cbn [new_test _testMethodName result rationale helpers log children
         _valgrind].
    unfold copytree. rewrite pristine. fold dst. unfold dst at 1.
    rewrite fresh. fold dst. fold self0. fold w0. rewrite Hf.
    destruct Ho as [-> | (r & h & res & ->)]; by eexists _, _. }
  destruct Hfirst as (self' & v & Hfirst).
  assert (Hsecond :
    wrapper name None f (new_test name) (set_test_results (insert name v) w1)
    = (Some (OtherException "OSError"),
       {| _testMethodName := name; result := FAIL; rationale := None;
          helpers := None; log := []; children := []; dir := Some dst;
          _valgrind := false |},
       set_test_results (insert name v) w1)).
  { unfold wrapper. cbn [truthy andb].
    cbn [new_test _testMethodName result rationale helpers log children
         _valgrind set_test_results cfg tempdir fs].
    rewrite Htmp. cbn [w0 cfg]. fold dst. unfold copytree.
    destruct Hdst as [x ->].
    by destruct (fs w1 !! path_join (tempdir (cfg w)) (u "_")) as [[|]|]. }
  eexists _, _, _, _.
  split. { cbn [make_suite]. rewrite lookup_singleton_eq. reflexivity. }
  cbn [run_suite dependency func]. rewrite Hfirst, Hsecond.
  split; [reflexivity|]. split; [by eexists|]. split; reflexivity.
Qed.

End DeclaredTwice.

Lemma second_run_of_a_name_ends_the_run_witness :
  exists suite e1 e2 w',
    make_suite {[ u "exists" := Method None passing ]} [u "exists"; u "exists"]
    = Some suite
    /\ run_suite suite [] fresh_world = (Exited, [e1; e2], w')
    /\ reported e1
    /\ status e2 = FAIL
    /\ entry_rationale e2 = inl (OtherException "OSError").
Proof.
  apply (second_run_of_a_name_ends_the_run (u "exists") passing fresh_world
           [(u "hello.c", File (u "int main(void) {}"))]).
  - reflexivity.
  - reflexivity.
  - intros self0 w0. exists None, self0, w0.
    split; [reflexivity|]. split; [by left|]. split; [reflexivity|]. auto.
Defined.

(* ===================================================================== *)
(** * Further properties: [@valgrind] *)
(* ===================================================================== *)

Section Valgrind.

(** X11.  [@valgrind] accepts a function exactly when some name has been
    registered and the last one registered is not the function's own; it
    never changes [config].  Hence a [@valgrind] written above [@check]
    is always refused with an [InternalError], and one met before any
    [@check] has run raises an [IndexError]. *)
Theorem valgrind_register_accepts (name : str) (c : config) :
  (forall c', valgrind_register name c = inr c' <->
              c' = c /\ exists l, last (test_cases c) = Some l /\ l <> name)
  /\ (forall c', check_register name c = inr c' ->
        exists msg, valgrind_register name c' = inl (InternalError msg))
  /\ (test_cases c = [] ->
        valgrind_register name c = inl (OtherException "IndexError")).
Proof.
  split; [|split].
  - intros c'. unfold valgrind_register.
    destruct (last (test_cases c)) as [l|].
    + destruct (decide (l = name)) as [->|Hne].
      * rewrite bool_decide_eq_true_2 by reflexivity.
        split; [discriminate|]. intros [_ (l & [= <-] & Hl)]. contradiction.
      * rewrite bool_decide_eq_false_2 by exact Hne.
        split; [intros [= <-]; eauto|]. by intros [-> _].
    + split; [discriminate|]. intros [_ (l & Hl & _)]. discriminate.
  - intros c' [= <-]. unfold valgrind_register. cbn [test_cases].
    rewrite last_snoc, bool_decide_eq_true_2 by reflexivity. by eexists.
  - intros Hnil. unfold valgrind_register. by rewrite Hnil.
Qed.

Variables (name : str) (dep : option str).
Variable parse : str -> option ET.element.
Variables (self : test) (w : world).

(** X12.  When valgrind is not installed, a check under [@valgrind] whose
    dependency is satisfied gets the verdict SKIP with the rationale
    "valgrind not installed": its directory is made, but its body is not
    run, whatever it is. *)
Theorem valgrind_missing_skips (f : body) (fs' : gmap (list N) node) :
  truthy dep = false \/ get (test_results (cfg w)) dep = PASS ->
  copytree
    (path_join (tempdir (cfg w)) (if truthy dep then default [] dep else u "_"))
    (path_join (tempdir (cfg w)) (_testMethodName self)) (fs w) = Some fs' ->
  exists self' w',
    (forall (f' : body) (parse' : str -> option ET.element),
       wrapper name dep (valgrind_wrapper false parse' f') self w
       = (None, self', w'))
    /\ result self' = SKIP
    /\ rationale self' = Some (Text (u "valgrind not installed"))
    /\ test_results (cfg w') !! name = Some SKIP
    /\ fs w' = fs'
    /\ dir self' = Some (path_join (tempdir (cfg w)) (_testMethodName self)).
Proof.
  intros Hgate Hcopy. eexists _, _. split.
  - intros f' parse'. unfold wrapper.
    assert (Hopen : truthy dep
                    && negb (bool_decide (get (test_results (cfg w)) dep = PASS))
                    = false).
    { destruct Hgate as [-> | Hpass]; [reflexivity|].
      rewrite bool_decide_eq_true_2 by exact Hpass. apply andb_false_r. }
    rewrite Hopen, Hcopy. unfold valgrind_wrapper. cbn [negb]. reflexivity.
  - cbn. rewrite lookup_insert_eq. repeat split.
Qed.

End Valgrind.

Lemma valgrind_missing_skips_witness :
  exists self' w',
    (forall (f' : body) (parse' : str -> option ET.element),
       wrapper (u "leaks") None (valgrind_wrapper false parse' f')
               (new_test (u "leaks")) fresh_world = (None, self', w'))
    /\ result self' = SKIP
    /\ rationale self' = Some (Text (u "valgrind not installed"))
    /\ test_results (cfg w') !! u "leaks" = Some SKIP
    /\ fs w' = <[u "/tmp/t/leaks" := Dir [(u "hello.c", File (u "int main(void) {}"))]]>
                (fs fresh_world)
    /\ dir self' = Some (path_join (tempdir (cfg fresh_world))
                                   (_testMethodName (new_test (u "leaks")))).
Proof.
  apply (valgrind_missing_skips (u "leaks") None (new_test (u "leaks")) fresh_world
           passing).
  - left. reflexivity.
  - reflexivity.
Defined.

(* ===================================================================== *)
(** * Further properties: the process session *)
(* ===================================================================== *)

Section Session.

Variable expect : pyvalue -> Z -> Spawn -> expect_result * Spawn.
Variable sendline : str -> Spawn -> send_result * Spawn.
Variable sendeof : Spawn -> send_result * Spawn.
Variable wait : Z -> Child -> option exn * Child.
Variables (self : Child) (lg : list str) (timeout : Z).

(** X13.  [stdin] with a prompt expected sends nothing when the program
    has not written anything: on [TIMEOUT] it raises the [Error] "expected
    prompt for input, found none", and when the output has ended it lets
    the [EOF] of [pexpect] through, which is not an [Error]; in both
    cases the outcome is the same whatever [sendline] and [sendeof] would
    do.  Without a prompt expected the output is not looked at. *)
Theorem stdin_waits_for_a_prompt (line : input) (c : Spawn) :
  (expect (Str (u ".+")) timeout (child self) = (RaisedTIMEOUT, c) ->
   forall sendline' sendeof',
     stdin expect sendline' sendeof' self lg line true timeout
     = (Some (Error (Some (Text (u "expected prompt for input, found none")))
                    None FAIL),
        set_child self c, lg ++ [sending line]))
  /\ (expect (Str (u ".+")) timeout (child self) = (RaisedEOF, c) ->
      forall sendline' sendeof',
        stdin expect sendline' sendeof' self lg line true timeout
        = (Some (OtherException "EOF"), set_child self c, lg ++ [sending line]))
  /\ (forall expect',
        stdin expect' sendline sendeof self lg line false timeout
        = stdin expect sendline sendeof self lg line false timeout).
Proof.
  split; [|split].
  - intros He sendline' sendeof'. unfold stdin. rewrite He. by destruct line.
  - intros He sendline' sendeof'. unfold stdin. rewrite He. by destruct line.
  - reflexivity.
Qed.


(** X15.  Once the program has exited, [exit(code)] returns the child
    exactly when the exit status is [code]; for any other status, also for
    none (a program ended by a signal), it raises the [Error] "expected
    exit code ..., not ...".  Without a code it returns the status and
    logs nothing.  What [wait] raises is passed on. *)
Theorem exit_compares_the_status (self1 : Child) :
  (wait timeout self = (None, self1) ->
   forall code : Z,
     ((exit wait self lg (Some code) timeout).1.1 = inr ExitSelf
      <-> exitstatus self1 = Some code)
     /\ (exitstatus self1 <> Some code ->
         exit wait self lg (Some code) timeout
         = (inl (Error (Some (Text (u "expected exit code " ++ str_of_int code
                                      ++ u ", not "
                                      ++ format_status (exitstatus self1))))
                       None FAIL),
            self1, lg ++ [checking_status code])))
  /\ (wait timeout self = (None, self1) ->
      exit wait self lg None timeout
      = (inr (ExitStatus (exitstatus self1)), self1, lg))
  /\ (forall e code, wait timeout self = (Some e, self1) ->
        exit wait self lg code timeout = (inl e, self1, lg)).
Proof.
  split; [|split].
  - intros Hw code. unfold exit. rewrite Hw. split.
    + destruct (decide (exitstatus self1 = Some code)) as [Heq|Hne].
      * rewrite bool_decide_eq_true_2 by exact Heq. done.
      * rewrite bool_decide_eq_false_2 by exact Hne. split; [discriminate|done].
    + intros Hne. by rewrite bool_decide_eq_false_2.
  - intros Hw. unfold exit. by rewrite Hw.
  - intros e code Hw. unfold exit. by rewrite Hw.
Qed.

End Session.

Lemma stdin_waits_for_a_prompt_witness :
  stdin Pexpect.expect (fun _ c => (Sent, c)) (fun c => (Sent, c))
        (session silent) [] (Line (u "42")) true 3
  = (Some (Error (Some (Text (u "expected prompt for input, found none")))
                 None FAIL),
     session {| before := Some []; after := AfterTIMEOUT; buffer := [];
                pending := []; closes := false |},
     [u "sending input 42..."]).
Proof.
  apply (proj1 (stdin_waits_for_a_prompt Pexpect.expect (fun _ c => (Sent, c))
                  (fun c => (Sent, c)) (session silent) [] 3 (Line (u "42"))
                  {| before := Some []; after := AfterTIMEOUT; buffer := [];
                     pending := []; closes := false |})).
  reflexivity.
Defined.


Lemma exit_compares_the_status_witness :
  exit (fun _ c => (None, {| child := child c; output := Str (u "hi");
                             exitstatus := Some 1%Z |}))
       (session (says (u "hi"))) [] (Some 0%Z) 3
  = (inl (Error (Some (Text (u "expected exit code 0, not 1"))) None FAIL),
     {| child := says (u "hi"); output := Str (u "hi"); exitstatus := Some 1%Z |},
     [u "checking that program exited with status 0..."]).
Proof.
  apply (proj2 (proj1 (exit_compares_the_status
                  (fun _ c => (None, {| child := child c; output := Str (u "hi");
                                        exitstatus := Some 1%Z |}))
                  (session (says (u "hi"))) [] 3
                  {| child := says (u "hi"); output := Str (u "hi");
                     exitstatus := Some 1%Z |}) eq_refl 0%Z)).
  discriminate.
Defined.

(* ===================================================================== *)
(** * Further properties: [require] *)
(* ===================================================================== *)

(** X16.  [require] goes through the paths in order and stops at the
    first one that does not exist, with the [Error] "... not found" for
    that path; it has then logged a line for that path and for each one
    before it, and none for those after it.  When all exist it returns,
    with one line logged for each. *)
Theorem require_stops_at_the_first_missing (exists_ : str -> bool)
    (lg : list str) (paths : list str) :
  require exists_ lg paths
  = match list_find (fun p => exists_ p = false) paths with
    | Some (i, p) =>
        (Some (Error (Some (Text (p ++ u " not found"))) None FAIL),
         lg ++ map checking_that (take (S i) paths))
    | None => (None, lg ++ map checking_that paths)
    end.
Proof.
  revert lg. induction paths as [|p paths IH]; intros lg.
  - cbn. by rewrite app_nil_r.
  - cbn [require list_find]. destruct (exists_ p) eqn:Hp.
    + rewrite decide_False by congruence. rewrite IH.
      destruct (list_find _ paths) as [[i q]|]; cbn;
        by rewrite <- app_assoc.
    + rewrite decide_True by reflexivity. reflexivity.
Qed.

(* ===================================================================== *)
(** * Further properties: the identifier of the checks *)
(* ===================================================================== *)

Section Identifier.

#[local] Set Warnings "-clear-no-such-hyp".

Lemma split_without (s : str) (sep : N) : sep ∉ s -> split s sep = [s].
Proof.
  induction s as [|c s IH]; intros Hs; [reflexivity|].
  cbn [split]. destruct (N.eqb_spec c sep) as [->|Hne]; [set_solver|].
  rewrite IH by set_solver. reflexivity.
Qed.

Lemma split_at (a b : str) (sep : N) :
  sep ∉ a -> split (a ++ sep :: b) sep = a :: split b sep.
Proof.
  induction a as [|c a IH]; intros Ha.
  - cbn [app split]. by rewrite N.eqb_refl.
  - cbn [app split]. destruct (N.eqb_spec c sep) as [->|Hne]; [set_solver|].
    rewrite IH by set_solver. reflexivity.
Qed.

Lemma split_length (s : str) (sep : N) :
  length (split s sep) = S (length (filter (fun c => c = sep) s)).
Proof.
  induction s as [|c s IH]; [reflexivity|].
  cbn [split]. destruct (N.eqb_spec c sep) as [->|Hne].
  - rewrite filter_cons_True by reflexivity. cbn [length]. by rewrite IH.
  - rewrite filter_cons_False by exact Hne.
    destruct (split s sep) as [|part parts]; [discriminate|exact IH].
Qed.

(** X17.  An identifier [slug@org/repo] is taken apart into its three
    components, whenever the slug holds no [@] and the organisation and the
    repository hold neither [@] nor [/]. *)
Theorem identifier_round_trip (slug org repo : str) :
  64 ∉ slug -> 64 ∉ org -> 47 ∉ org -> 64 ∉ repo -> 47 ∉ repo ->
  identifier_parts (slug ++ u "@" ++ org ++ u "/" ++ repo) = inr (slug, org, repo).
Proof.
  intros Hslug Horg1 Horg2 Hrepo1 Hrepo2. unfold identifier_parts.
  change (u "@" ++ org ++ u "/" ++ repo) with (64 :: org ++ 47 :: repo).
  rewrite split_at by exact Hslug.
  rewrite split_without by set_solver.
  rewrite split_at by exact Horg2.
  by rewrite split_without.
Qed.

(** X18.  An identifier that does not hold exactly one [@] is taken whole
    for the slug, with the repository [cs50/checks]: so it is for an
    identifier without [@], and also for one with two or more. *)
Theorem identifier_defaults_to_cs50_checks (identifier : str) :
  length (filter (fun c => c = 64) identifier) <> 1%nat ->
  identifier_parts identifier = inr (identifier, u "cs50", u "checks").
Proof.
  intros Hcount. unfold identifier_parts.
  pose proof (split_length identifier 64) as Hlen.
  destruct (split identifier 64) as [|a [|b [|c l]]]; try reflexivity.
  cbn in Hlen. lia.
Qed.

(** X19.  An identifier with one [@] whose repository part does not hold
    exactly one [/] is refused with an [InternalError] that quotes that
    part. *)
Theorem identifier_with_a_bad_repository (slug repo : str) :
  64 ∉ slug -> 64 ∉ repo ->
  length (filter (fun c => c = 47) repo) <> 1%nat ->
  identifier_parts (slug ++ u "@" ++ repo)
  = inl (InternalError
           (u "expected repository to be of the form username/repository, but got "
              ++ [dquote] ++ repo ++ [dquote])).
Proof.
  intros Hslug Hrepo Hcount. unfold identifier_parts.
  change (u "@" ++ repo) with (64 :: repo).
  rewrite split_at by exact Hslug. rewrite split_without by exact Hrepo.
  pose proof (split_length repo 47) as Hlen.
  destruct (split repo 47) as [|a [|b [|c l]]]; try reflexivity.
  cbn in Hlen. lia.
Qed.

Lemma replace_by_itself (s : str) (c : N) : replace s [c] [c] = s.
Proof.
  unfold replace. induction s as [|x s IH]; [reflexivity|].
  cbn [replace_from startswith length]. rewrite startswith_nil, andb_true_r.
  destruct (N.eqb_spec c x) as [->|Hne]; cbn; by rewrite IH.
Qed.

Lemma path_join_absolute (a b : str) : path_join a (47 :: b) = 47 :: b.
Proof.
  unfold path_join. change (u "/") with [47]. cbn [startswith].
  by rewrite N.eqb_refl, startswith_nil.
Qed.

Lemma path_join_relative (a b : str) (c : N) :
  startswith b (u "/") = false -> last a = Some c -> c <> 47 ->
  path_join a b = a ++ u "/" ++ b.
Proof.
  intros Hb Ha Hc. unfold path_join. rewrite Hb, Ha.
  by destruct (N.eqb_spec c 47).
Qed.

(** X20.  The directory of the checks is
    [checkdir/org/repo/slug/check50] when the components are relative and
    do not end with a slash; but a slug that begins with a slash replaces
    everything before it: the directory is then [slug/check50], outside
    [checkdir]. *)
Theorem check_dir_layout (checkdir slug org repo : str) (c1 c2 c3 c4 : N) :
  last slug = Some c4 -> c4 <> 47 ->
  (startswith slug (u "/") = true ->
   check_dir checkdir slug org repo = slug ++ u "/check50")
  /\ (startswith slug (u "/") = false ->
      startswith org (u "/") = false -> startswith repo (u "/") = false ->
      last checkdir = Some c1 -> c1 <> 47 ->
      last org = Some c2 -> c2 <> 47 ->
      last repo = Some c3 -> c3 <> 47 ->
      check_dir checkdir slug org repo
      = checkdir ++ u "/" ++ org ++ u "/" ++ repo ++ u "/" ++ slug ++ u "/check50").
Proof.
  intros Hslug Hc4. unfold check_dir.
  change (replace slug (u "/") (u "/")) with (replace slug [47] [47]).
  rewrite replace_by_itself. split.
  - intros Habs. destruct slug as [|x rest]; [discriminate|].
    change (u "/") with [47] in Habs. cbn [startswith] in Habs.
    rewrite startswith_nil, andb_true_r in Habs. apply N.eqb_eq in Habs as <-.
    rewrite path_join_absolute.
    by rewrite (path_join_relative _ _ c4).
  - intros Hrel Horg Hrepo H1 Hc1 H2 Hc2 H3 Hc3.
    assert (Hlast : forall (a b : str) x, last b = Some x -> last (a ++ u "/" ++ b) = Some x).
    { intros a b x Hb. apply last_Some in Hb as [b' ->].
      change (u "/") with [47]. rewrite !app_assoc. apply last_snoc. }
    rewrite (path_join_relative checkdir org c1) by assumption.
    rewrite (path_join_relative _ repo c2); [|assumption|by apply Hlast|assumption].
    rewrite (path_join_relative _ slug c3);
      [|assumption|by apply Hlast|assumption].
    rewrite (path_join_relative _ (u "check50") c4);
      [|reflexivity|by apply Hlast|assumption].
    by rewrite <- !app_assoc.
Qed.

End Identifier.

Lemma identifier_round_trip_witness :
  identifier_parts (u "cs50/2017/x/hello" ++ u "@" ++ u "me" ++ u "/" ++ u "mychecks")
  = inr (u "cs50/2017/x/hello", u "me", u "mychecks").
Proof.
  apply (identifier_round_trip (u "cs50/2017/x/hello") (u "me") (u "mychecks"));
    absent.
Defined.

Lemma identifier_defaults_to_cs50_checks_witness :
  identifier_parts (u "a@b@c/d") = inr (u "a@b@c/d", u "cs50", u "checks").
Proof.
  apply (identifier_defaults_to_cs50_checks (u "a@b@c/d")).
  vm_compute. discriminate.
Defined.

Lemma identifier_with_a_bad_repository_witness :
  identifier_parts (u "hello" ++ u "@" ++ u "cs50")
  = inl (InternalError
           (u "expected repository to be of the form username/repository, but got "
              ++ [dquote] ++ u "cs50" ++ [dquote])).
Proof.
  apply (identifier_with_a_bad_repository (u "hello") (u "cs50")).
  - absent.
  - absent.
  - vm_compute. discriminate.
Defined.

Lemma check_dir_layout_witness :
  check_dir (u "/home/me/.local/share/check50") (u "/etc/evil") (u "cs50") (u "checks")
  = u "/etc/evil" ++ u "/check50".
Proof.
  apply (proj1 (check_dir_layout (u "/home/me/.local/share/check50") (u "/etc/evil")
                  (u "cs50") (u "checks") 48 48 48 108 eq_refl ltac:(discriminate))).
  reflexivity.
Defined.

(* ===================================================================== *)
(** * Further properties: where a valgrind error is located *)
(* ===================================================================== *)

Section Location.

Variable d : str.

Lemma first_frame_after_outside (pre frames : list ET.element) :
  Forall (outside d) pre -> first_frame d (pre ++ frames) = first_frame d frames.
Proof.
  induction 1 as [|frame pre Hout _ IH]; [reflexivity|].
  cbn [app first_frame].
  destruct Hout as [-> | (obj & p & -> & -> & Hne)]; [exact IH|].
  by rewrite bool_decide_eq_false_2.
Qed.


(** X22.  An error whose stack has no frame in the check's directory is
    reported by its description alone, after a tab: the description of
    [xwhat/text] for a leak, of [what] for any other kind. *)
Theorem message_without_location (error k e : ET.element) (kind what : str) :
  ET.find [u "kind"] error = Some k -> ET.text k = Some kind ->
  ET.find (if startswith kind (u "Leak_") then [u "xwhat"; u "text"] else [u "what"])
          error = Some e ->
  ET.text e = Some what ->
  Forall (outside d) (ET.iterfind [u "stack"; u "frame"] error) ->
  message d error = inr ([TAB] ++ what).
Proof.
  intros Hk Hkind He Hwhat Hframes. unfold message.
  rewrite Hk, Hkind, He, Hwhat.
  rewrite <- (app_nil_r (ET.iterfind _ error)).
  rewrite first_frame_after_outside by exact Hframes.
  cbn. by rewrite app_nil_r.
Qed.

Lemma drop_while_all (f : N -> bool) (l r : str) :
  forallb f l = true -> drop_while f (l ++ r) = drop_while f r.
Proof.
  induction l as [|c l IH]; [reflexivity|].
  cbn [forallb app drop_while]. intros H. apply andb_prop in H as [-> Hl].
  by apply IH.
Qed.

(** X23.  The directory of a file that lies directly in [dir] is [dir]:
    [os.path.dirname] undoes [os.path.join] with a name that holds no
    slash, for a directory that does not end with one.  This is the test
    by which a stack frame counts as the student's. *)
Theorem dirname_of_joined (dir name : str) (c : N) :
  last dir = Some c -> c <> 47 -> 47 ∉ name ->
  dirname (path_join dir name) = dir.
Proof.
  intros Hlast Hc Hname.
  assert (Hrel : startswith name (u "/") = false).
  { destruct name as [|x name]; [reflexivity|].
    change (u "/") with [47]. cbn [startswith].
    apply andb_false_intro1, N.eqb_neq. set_solver. }
  rewrite (path_join_relative dir name c) by assumption.
  change (u "/") with [47]. unfold dirname.
  assert (Hnoslash : forallb (fun x => negb (x =? 47)) (rev name) = true).
  { apply forallb_forall. intros x Hx. apply in_rev in Hx.
    apply negb_true_iff, N.eqb_neq. intros ->.
    apply Hname. by apply list_elem_of_In. }
  assert (Hhead :
    rev (drop_while (fun x => negb (x =? 47)) (rev (dir ++ [47] ++ name)))
    = dir ++ [47]).
  { rewrite !rev_app_distr, <- app_assoc, (drop_while_all _ _ _ Hnoslash).
    cbn [rev app drop_while]. rewrite N.eqb_refl. cbn [negb rev].
    by rewrite rev_involutive. }
  rewrite Hhead. clear Hhead.
  apply last_Some in Hlast as [dir' ->].
  assert (Hno : (47 =? c) = false) by (apply N.eqb_neq; congruence).
  assert (Hnot : forallb (N.eqb 47) ((dir' ++ [c]) ++ [47]) = false).
  { rewrite !forallb_app. cbn [forallb]. rewrite Hno.
    by rewrite !andb_false_r. }
  rewrite Hnot.
  assert (Hstrip : rev (drop_while (N.eqb 47) (rev ((dir' ++ [c]) ++ [47])))
                   = dir' ++ [c]).
  { rewrite !rev_app_distr. cbn [rev app drop_while].
    rewrite N.eqb_refl, Hno. cbn [rev]. by rewrite rev_involutive. }
  rewrite Hstrip.
  destruct ((dir' ++ [c]) ++ [47]) eqn:Hd; [|reflexivity].
  by destruct dir'.
Qed.

End Location.

Lemma library_frame_outside : outside (u "/tmp/t/leaks") library_frame.
Proof.
  right. exists (ET.Element (u "obj") (Some (u "/usr/lib/libc.so")) []),
                (u "/usr/lib/libc.so").
  split; [reflexivity|]. split; [reflexivity|]. vm_compute. discriminate.
Qed.


Lemma message_without_location_witness :
  message (u "/tmp/t/leaks") invalid_read = inr ([TAB] ++ u "Invalid read of size 4").
Proof.
  apply (message_without_location (u "/tmp/t/leaks") invalid_read
           (ET.Element (u "kind") (Some (u "InvalidRead")) [])
           (ET.Element (u "what") (Some (u "Invalid read of size 4")) [])
           (u "InvalidRead") (u "Invalid read of size 4")).
  - reflexivity.
  - reflexivity.
  - reflexivity.
  - reflexivity.
  - constructor; [exact library_frame_outside|constructor].
Defined.

Lemma dirname_of_joined_witness :
  dirname (path_join (u "/tmp/t/leaks") (u "a.out")) = u "/tmp/t/leaks".
Proof.
  apply (dirname_of_joined (u "/tmp/t/leaks") (u "a.out") 115).
  - reflexivity.
  - discriminate.
  - absent.
Defined.


Lemma valgrind_register_accepts_witness :
  exists msg,
    valgrind_register (u "leaks")
      {| tempdir := u "/tmp/t"; test_cases := [u "exists"; u "leaks"];
         test_results := ∅ |} = inl (InternalError msg).
Proof.
  apply (proj1 (proj2 (valgrind_register_accepts (u "leaks")
                         {| tempdir := u "/tmp/t"; test_cases := [u "exists"];
                            test_results := ∅ |}))).
  reflexivity.
Defined.

(* ===================================================================== *)
(** * Further properties: what [stdout] logs, and when it returns *)
(* ===================================================================== *)

Section Stdout.

Variable isprintable : N -> bool.
Variables expect expect_exact : pyvalue -> Z -> Spawn -> expect_result * Spawn.
Variable wait : Z -> Child -> option exn * Child.
Variables (self : Child) (lg : list str).
Variables (str_output : option str) (timeout : Z).

(** X24.  Given an expectation, [stdout] adds exactly one line to the log,
    which names the expectation, whether it then returns or raises; and it
    returns exactly when the matcher returns, unless end of output was
    expected and there still was output before it. *)
Theorem stdout_logs_one_line (output : expectation) :
  output <> NoOutput ->
  let matcher := match output with Readable _ => expect_exact | _ => expect end in
  let sought :=
    match output with
    | Readable s | ExpectText s => Str (to_crlf s)
    | _ => EOF
    end in
  let shown :=
    match output with
    | Readable s | ExpectText s => default s str_output
    | _ => u "EOF"
    end in
  let run := stdout isprintable expect expect_exact wait self lg output
                    str_output timeout in
  run.2 = lg ++ [checking_for shown]
  /\ run.1.2 = set_child self (matcher sought timeout (child self)).2
  /\ (run.1.1 = inr Self
      <-> (matcher sought timeout (child self)).1 = Matched
          /\ (output = ExpectEOF ->
              before (matcher sought timeout (child self)).2 = None
              \/ before (matcher sought timeout (child self)).2 = Some [])).
Proof.
  intros Hout matcher sought shown run.
  subst run matcher sought shown. unfold checking_for.
  destruct output as [|content| |s]; try contradiction; unfold stdout;
    match goal with
    | |- context [?m ?p timeout (child self)] =>
        destruct (m p timeout (child self)) as [[| | |cls] c]
    end; cbn [fst snd];
    try (destruct (before c) as [[|x b]|]; try destruct (after c));
    cbn [fst snd];
    (split; [reflexivity|]); (split; [reflexivity|]);
    split; try discriminate; try (intros [? ?]; discriminate);
    try (intros _; split; [reflexivity|]; auto; discriminate);
    try reflexivity; try (by intros [_ ?]).
  all: intros [_ H]; destruct (H eq_refl); discriminate.
Qed.

End Stdout.

Lemma stdout_logs_one_line_witness :
  (stdout (fun _ => true) Pexpect.expect Pexpect.expect_exact no_wait
          (session (says (u "hello" ++ [CR; LF]))) [u "running ./hello..."]
          (ExpectText (u "hello" ++ [LF])) None 3).2
  = [u "running ./hello..."] ++ [checking_for (u "hello" ++ [LF])].
Proof.
  apply (proj1 (stdout_logs_one_line (fun _ => true) Pexpect.expect
                  Pexpect.expect_exact no_wait
                  (session (says (u "hello" ++ [CR; LF]))) [u "running ./hello..."]
                  None 3 (ExpectText (u "hello" ++ [LF])) ltac:(discriminate))).
Defined.

(* ===================================================================== *)
(** * Further properties: the audit decides the verdict *)
(* ===================================================================== *)

Section Verdict.

#[local] Set Warnings "-clear-no-such-hyp".

Variable parse : str -> option ET.element.
Variables (name : str) (f : body) (self : test) (w : world).
Variable entries : list (list N * node).
Variables (self1 : test) (w1 : world) (d : str).
Variables (xml : ET.element) (msgs : list (list N)).

Hypothesis pristine :
  fs w !! path_join (tempdir (cfg w)) (u "_") = Some (Dir entries).
Hypothesis fresh :
  fs w !! path_join (tempdir (cfg w)) (_testMethodName self) = None.

(** The body, run under [@valgrind] in the directory made for the check,
    returns, and leaves a report every entry of which renders. *)
Hypothesis body_returns :
  f {| _testMethodName := _testMethodName self; result := result self;
       rationale := rationale self; helpers := helpers self; log := log self;
       children := children self;
       dir := Some (path_join (tempdir (cfg w)) (_testMethodName self));
       _valgrind := true |}
    {| cfg := cfg w;
       fs := <[path_join (tempdir (cfg w)) (_testMethodName self) := Dir entries]> (fs w);
       cwd := path_join (tempdir (cfg w)) (_testMethodName self);
       environ := environ w; spawned := spawned w |}
  = (None, self1, w1).
Hypothesis in_directory : dir self1 = Some d.
Hypothesis report_read : read_report parse w1 d = inr xml.
Hypothesis rendered :
  Forall2 (fun e m => message d e = inr m) (ET.iterfind [u "error"] xml) msgs.

(** X25.  For a check under [@check] and [@valgrind] whose body returns,
    the report decides: with no error entry the verdict is PASS, with any
    the verdict is FAIL and the rationale "valgrind tests failed; rerun
    with --log for more information."; either way the verdict is recorded
    and the instance no longer runs its commands under valgrind. *)
Theorem report_decides_the_verdict :
  exists self' w',
    wrapper name None (valgrind_wrapper true parse f) self w = (None, self', w')
    /\ result self' = (match msgs with [] => PASS | _ :: _ => FAIL end)
    /\ (msgs <> [] ->
        rationale self'
        = Some (Text (u "valgrind tests failed; rerun with --log for more information.")))
    /\ test_results (cfg w') !! name = Some (result self')
    /\ _valgrind self' = false.
Proof.
  destruct (report_errors_logs_new parse d _ _ rendered ∅
              (log self1 ++ [u "checking for valgrind errors... "]))
    as (new & Heq & _).
  unfold wrapper. cbn [truthy andb]. unfold copytree. rewrite pristine, fresh.
  unfold valgrind_wrapper. cbn [negb]. unfold set_valgrind.
  cbn [_testMethodName result rationale helpers log children dir].
  rewrite body_returns.
  unfold _check_valgrind. rewrite in_directory, report_read, Heq.
  destruct msgs as [|m msgs'].
  - rewrite bool_decide_eq_true_2 by set_solver.
    eexists _, _. split; [reflexivity|]. cbn.
    rewrite lookup_insert_eq. repeat split. done.
  - rewrite bool_decide_eq_false_2 by set_solver.
    eexists _, _. split; [reflexivity|]. cbn.
    rewrite lookup_insert_eq. repeat split.
Qed.

End Verdict.

Lemma report_decides_the_verdict_witness :
  exists self' w',
    wrapper (u "leaks") None (valgrind_wrapper true (fun _ => Some leak_report) leaky)
            (new_test (u "leaks")) fresh_world = (None, self', w')
    /\ result self' = FAIL
    /\ ([leak_message; leak_message] <> [] ->
        rationale self'
        = Some (Text (u "valgrind tests failed; rerun with --log for more information.")))
    /\ test_results (cfg w') !! u "leaks" = Some (result self')
    /\ _valgrind self' = false.
Proof.
  apply (report_decides_the_verdict (fun _ => Some leak_report) (u "leaks") leaky
           (new_test (u "leaks")) fresh_world
           [(u "hello.c", File (u "int main(void) {}"))]
           {| _testMethodName := u "leaks"; result := FAIL; rationale := None;
              helpers := None; log := []; children := [];
              dir := Some (u "/tmp/t/leaks"); _valgrind := true |} leak_world
           (u "/tmp/t/leaks") leak_report [leak_message; leak_message]).
  - reflexivity.
  - reflexivity.
  - reflexivity.
  - reflexivity.
  - reflexivity.
  - repeat constructor.
Defined.

(* ===================================================================== *)
(** * Further properties: the directory a check runs in *)
(* ===================================================================== *)

Section Copy.

Variables (name : str) (dep : option str) (f : body).
Variables (self : test) (w : world).
Variable entries : list (list N * node).

Hypothesis gate_open :
  truthy dep = false \/ get (test_results (cfg w)) dep = PASS.
Hypothesis source :
  fs w !! path_join (tempdir (cfg w)) (if truthy dep then default [] dep else u "_")
  = Some (Dir entries).
Hypothesis fresh :
  fs w !! path_join (tempdir (cfg w)) (_testMethodName self) = None.
Hypothesis body_keeps_fs : forall self0 w0, fs (f self0 w0).2 = fs w0.

(** X26.  A check that is run gets, under its own name in the temporary
    directory, a copy of the directory it starts from (its dependency's,
    or the pristine one when it has none); the directory it starts from is
    still there, with the same entries.  This is how things are after a
    body that itself changes no directory. *)
Theorem check_runs_in_a_copy :
  fs (wrapper name dep f self w).2
     !! path_join (tempdir (cfg w)) (_testMethodName self) = Some (Dir entries)
  /\ fs (wrapper name dep f self w).2
        !! path_join (tempdir (cfg w)) (if truthy dep then default [] dep else u "_")
     = Some (Dir entries).
Proof.
  assert (Hopen : truthy dep
                  && negb (bool_decide (get (test_results (cfg w)) dep = PASS))
                  = false).
  { destruct gate_open as [-> | Hpass]; [reflexivity|].
    rewrite bool_decide_eq_true_2 by exact Hpass. apply andb_false_r. }
  assert (Hne : path_join (tempdir (cfg w)) (_testMethodName self)
                <> path_join (tempdir (cfg w))
                             (if truthy dep then default [] dep else u "_")).
  { intros Heq. rewrite Heq in fresh. congruence. }
  unfold wrapper. rewrite Hopen. unfold copytree. rewrite source, fresh.
  match goal with
  | |- context [f ?s0 ?w0] =>
      pose proof (body_keeps_fs s0 w0) as Hfs;
      destruct (f s0 w0) as [[[[]|] s1] w1]
  end; cbn in Hfs |- *; rewrite Hfs;
    (split; [apply lookup_insert_eq|by rewrite lookup_insert_ne]).
Qed.

End Copy.

Lemma check_runs_in_a_copy_witness :
  fs (wrapper (u "exists") None passing (new_test (u "exists")) fresh_world).2
     !! path_join (tempdir (cfg fresh_world)) (_testMethodName (new_test (u "exists")))
  = Some (Dir [(u "hello.c", File (u "int main(void) {}"))])
  /\ fs (wrapper (u "exists") None passing (new_test (u "exists")) fresh_world).2
        !! path_join (tempdir (cfg fresh_world))
                     (if truthy None then default [] None else u "_")
     = Some (Dir [(u "hello.c", File (u "int main(void) {}"))]).
Proof.
  apply (check_runs_in_a_copy (u "exists") None passing (new_test (u "exists"))
           fresh_world [(u "hello.c", File (u "int main(void) {}"))]).
  - left. reflexivity.
  - reflexivity.
  - reflexivity.
  - reflexivity.
Defined.
